(** * go-log: the logger registry and level control

    A shallow embedding of [log.go] and [setup.go].  The package keeps its
    registry in package-level variables ([loggers], [levels], [defaultLevel],
    [primaryCore], ...) guarded by one mutex; every exported function holds
    the lock for its whole body ([SetLogLevel] and [GetSubsystems] the read
    lock, the others the write lock), and each call is taken here as one step
    on the record [State] below.  A [zap.AtomicLevel] is a pointer to an atomic cell: copies
    of it share the cell.  The cells therefore live in a heap, and the maps
    hold addresses. *)

From stdpp Require Import base option list strings gmap fin_maps.

Local Open Scope string_scope.
Local Open Scope list_scope.
Local Open Scope nat_scope.

(** ** Types declared outside [log.go] and [setup.go] *)

(** Modelled from the spec: the [LogLevel] type ([levels.go] is missing);
    "an ordered enumeration of verbosity
    (Debug < Info < Warn < Error < DPanic < Panic < Fatal)". *)
Inductive LogLevel :=
  | LevelDebug | LevelInfo | LevelWarn | LevelError
  | LevelDPanic | LevelPanic | LevelFatal.

Definition level_rank (l : LogLevel) : nat :=
  match l with
  | LevelDebug => 0 | LevelInfo => 1 | LevelWarn => 2 | LevelError => 3
  | LevelDPanic => 4 | LevelPanic => 5 | LevelFatal => 6
  end.

#[global] Instance LogLevel_eq_dec : EqDecision LogLevel.
Proof. solve_decision. Defined.

(** [type LogFormat int] with its three constants. *)
Inductive LogFormat :=
  | FormatColorizedOutput | FormatPlaintextOutput | FormatJSONOutput.

#[global] Instance LogFormat_eq_dec : EqDecision LogFormat.
Proof. solve_decision. Defined.

(** Go's [error] values met in these two files. *)
Inductive error :=
  | ErrNoSuchLogger
  | ErrUnknownLevel (token : string)
  | ErrInvalidPattern (pattern : string)
  | ErrUnresolvedPath (path : string).

(** Modelled from the spec: the [Config] struct (its declaration is
    missing); the fields are the ones [SetupLogging] and [configFromEnv]
    read and write. *)
Record Config := {
  Format : LogFormat;
  Stderr : bool;
  Stdout : bool;
  File : string;
  URL : string;
  Level : LogLevel;
  SubsystemLevels : gmap string LogLevel;
  Labels : gmap string string
}.

(** Modelled from the spec: the write core built by [newCore] ([core.go] is
    missing): "a new Primary Core from (format, destinations, Debug floor,
    labels)". *)
Record Core := {
  core_format : LogFormat;
  core_outputs : list string;
  core_floor : LogLevel;
  core_fields : list (string * string)
}.

#[global] Instance Core_eq_dec : EqDecision Core.
Proof. solve_decision. Defined.

Definition newCore (fmt : LogFormat) (outputs : list string) (floor : LogLevel) : Core :=
  {| core_format := fmt; core_outputs := outputs; core_floor := floor;
     core_fields := [] |}.

(** [core.With(fields)] *)
Definition core_With (c : Core) (fields : list (string * string)) : Core :=
  {| core_format := core_format c; core_outputs := core_outputs c;
     core_floor := core_floor c; core_fields := core_fields c ++ fields |}.

(** A [zapcore.Core] is an interface value: [None] is [nil]. *)
Abbreviation CoreRef := (option Core).

(** Modelled from the spec: [lockedMultiCore] ([core.go] is missing), the
    multiplexing core: "atomically replace the previously active Primary Core
    with the new one inside the multiplexing core -- if no core was active
    yet, add it instead of replacing". *)
Definition AddCore (core : CoreRef) (cores : list CoreRef) : list CoreRef :=
  cores ++ [core].

Definition ReplaceCore (original replacement : CoreRef) (cores : list CoreRef)
  : list CoreRef :=
  (fun c => if decide (c = original) then replacement else c) <$> cores.

(** ** The backend objects the registry holds *)

(** [zap.AtomicLevel]: the address of an atomic level cell. *)
Abbreviation AtomicLevel := nat.

(** [*zap.SugaredLogger] as built by [getLogger]: every logger writes through
    the one shared [loggerCore]; what differs is the level cell it filters by,
    its name and its caller options. *)
Record SugaredLogger := {
  lg_name : string;
  lg_level : AtomicLevel;
  lg_addCaller : bool;
  lg_callerSkip : nat
}.

(** [logger.Desugar().WithOptions(zap.AddCallerSkip(n)).Sugar()] *)
Definition AddCallerSkip (n : nat) (lg : SugaredLogger) : SugaredLogger :=
  {| lg_name := lg_name lg; lg_level := lg_level lg;
     lg_addCaller := lg_addCaller lg; lg_callerSkip := lg_callerSkip lg + n |}.

(** The facade returned by [Logger]. *)
Record ZapEventLogger := {
  system : string;
  sugared : SugaredLogger;
  skipLogger : SugaredLogger
}.

(** A record that reached the multiplexing core. *)
Record Entry := {
  e_logger : string;
  e_level : LogLevel;
  e_message : string
}.

(** What [SetupLogging] prints on the process's standard error. *)
Inductive StderrLine :=
  | FailedToResolveLogPath (file : string) (outputPaths : list string).

(** ** The package state *)

Record State := {
  loggers : gmap string SugaredLogger;
  levels : gmap string AtomicLevel;
  heap : list LogLevel;              (* the atomic level cells *)
  primaryFormat : LogFormat;
  defaultLevel : LogLevel;
  primaryCore : CoreRef;
  loggerCore : list CoreRef;         (* the cores of the lockedMultiCore *)
  written : list Entry;              (* records written through loggerCore *)
  stderr : list StderrLine
}.

Definition set_loggers (f : gmap string SugaredLogger → gmap string SugaredLogger)
  (st : State) : State :=
  {| loggers := f (loggers st); levels := levels st; heap := heap st;
     primaryFormat := primaryFormat st; defaultLevel := defaultLevel st;
     primaryCore := primaryCore st; loggerCore := loggerCore st;
     written := written st; stderr := stderr st |}.

Definition set_levels (f : gmap string AtomicLevel → gmap string AtomicLevel)
  (st : State) : State :=
  {| loggers := loggers st; levels := f (levels st); heap := heap st;
     primaryFormat := primaryFormat st; defaultLevel := defaultLevel st;
     primaryCore := primaryCore st; loggerCore := loggerCore st;
     written := written st; stderr := stderr st |}.

Definition set_heap (f : list LogLevel → list LogLevel) (st : State) : State :=
  {| loggers := loggers st; levels := levels st; heap := f (heap st);
     primaryFormat := primaryFormat st; defaultLevel := defaultLevel st;
     primaryCore := primaryCore st; loggerCore := loggerCore st;
     written := written st; stderr := stderr st |}.

Definition set_primaryFormat (x : LogFormat) (st : State) : State :=
  {| loggers := loggers st; levels := levels st; heap := heap st;
     primaryFormat := x; defaultLevel := defaultLevel st;
     primaryCore := primaryCore st; loggerCore := loggerCore st;
     written := written st; stderr := stderr st |}.

Definition set_defaultLevel (x : LogLevel) (st : State) : State :=
  {| loggers := loggers st; levels := levels st; heap := heap st;
     primaryFormat := primaryFormat st; defaultLevel := x;
     primaryCore := primaryCore st; loggerCore := loggerCore st;
     written := written st; stderr := stderr st |}.

Definition set_cores (pc : CoreRef) (lc : list CoreRef) (st : State) : State :=
  {| loggers := loggers st; levels := levels st; heap := heap st;
     primaryFormat := primaryFormat st; defaultLevel := defaultLevel st;
     primaryCore := pc; loggerCore := lc;
     written := written st; stderr := stderr st |}.

Definition write_entry (e : Entry) (st : State) : State :=
  {| loggers := loggers st; levels := levels st; heap := heap st;
     primaryFormat := primaryFormat st; defaultLevel := defaultLevel st;
     primaryCore := primaryCore st; loggerCore := loggerCore st;
     written := written st ++ [e]; stderr := stderr st |}.

Definition print_stderr (l : StderrLine) (st : State) : State :=
  {| loggers := loggers st; levels := levels st; heap := heap st;
     primaryFormat := primaryFormat st; defaultLevel := defaultLevel st;
     primaryCore := primaryCore st; loggerCore := loggerCore st;
     written := written st; stderr := stderr st ++ [l] |}.

(** The package-level [var] initialisers, before [init] runs. *)
Definition initial : State :=
  {| loggers := ∅; levels := ∅; heap := [];
     primaryFormat := FormatColorizedOutput; defaultLevel := LevelError;
     primaryCore := None; loggerCore := [];
     written := []; stderr := [] |}.

(** ** Atomic levels *)

(** [zap.NewAtomicLevelAt(l)]: a fresh cell holding [l]. *)
Definition NewAtomicLevelAt (l : LogLevel) (st : State) : AtomicLevel * State :=
  (length (heap st), set_heap (fun h => h ++ [l]) st).

(** [a.SetLevel(l)] *)
Definition SetLevel (a : AtomicLevel) (l : LogLevel) (st : State) : State :=
  set_heap (fun h => <[a := l]> h) st.

(** [a.Level()] *)
Definition GetLevel (a : AtomicLevel) (st : State) : option LogLevel :=
  heap st !! a.

(** [a.Enabled(l)]: the cell's level is at most [l]. *)
Definition Enabled (a : AtomicLevel) (l : LogLevel) (st : State) : bool :=
  match GetLevel a st with
  | Some cur => bool_decide (level_rank cur ≤ level_rank l)
  | None => false
  end.

(** Modelled from the spec: a leveled emit on a backend logger "filtered by
    that holder and writing through the shared multiplexing core". *)
Definition emit (lg : SugaredLogger) (l : LogLevel) (msg : string) (st : State)
  : State :=
  if Enabled (lg_level lg) l st
  then write_entry {| e_logger := lg_name lg; e_level := l; e_message := msg |} st
  else st.

(** The current level of the subsystem called [name], when it has a holder. *)
Definition level_of (name : string) (st : State) : option LogLevel :=
  a ← levels st !! name; GetLevel a st.

(** What a call leaves behind: it returned [a], or it panicked. *)
Inductive outcome (A : Type) :=
  | Returned (a : A) (st : State)
  | Panicked (st : State).
Arguments Returned {A} a st.
Arguments Panicked {A} st.

Definition state_after {A} (o : outcome A) : State :=
  match o with Returned _ st => st | Panicked st => st end.

(** ** A concrete environment

    One choice for each function the operations below leave open, to run the operations on
    concrete registries. *)

Definition to_lower (c : Ascii.ascii) : Ascii.ascii :=
  let n := Ascii.nat_of_ascii c in
  if (65 <=? n) && (n <=? 90) then Ascii.ascii_of_nat (n + 32) else c.

Fixpoint lower (s : string) : string :=
  match s with
  | EmptyString => EmptyString
  | String c s => String (to_lower c) (lower s)
  end.

(** Modelled from the spec: [LevelFromString] ([levels.go] is missing):
    "case-insensitive match against the fixed token set; fails with
    UnknownLevel error otherwise". *)
Definition LevelFromString_spec (s : string) : LogLevel + error :=
  let t := lower s in
  if decide (t = "debug") then inl LevelDebug
  else if decide (t = "info") then inl LevelInfo
  else if decide (t = "warn") then inl LevelWarn
  else if decide (t = "error") then inl LevelError
  else if decide (t = "dpanic") then inl LevelDPanic
  else if decide (t = "panic") then inl LevelPanic
  else if decide (t = "fatal") then inl LevelFatal
  else inr (ErrUnknownLevel s).

(** Maps visited in the order of [map_to_list]. *)
Definition range_list {A : Type} (m : gmap string A) : list (string * A) :=
  map_to_list m.

(** Paths are kept as they are; ["?"] does not resolve. *)
Definition normalizePath_id (p : string) : string + error :=
  if decide (p = "?") then inr (ErrUnresolvedPath p) else inl p.

(** Every sink opens, except ["/dev/full/x"]. *)
Definition zap_Open_all (paths : list string) : option (list string) :=
  if decide ("/dev/full/x" ∈ paths) then None else Some paths.

(** Patterns of the shape [^prefix]; anything else does not compile. *)
Definition prefix_Compile (e : string) : string + error :=
  match e with
  | String c p =>
      if Ascii.eqb c (Ascii.ascii_of_nat 94) then inl p
      else inr (ErrInvalidPattern e)
  | EmptyString => inr (ErrInvalidPattern e)
  end.

Definition prefix_Match (p s : string) : bool := String.prefix p s.

(** A configuration with every destination switched on and two overrides. *)
Definition cfg_demo : Config :=
  {| Format := FormatJSONOutput; Stderr := true; Stdout := true;
     File := "/var/log/app.log"; URL := "udp://sink";
     Level := LevelWarn;
     SubsystemLevels := {[ "a" := LevelInfo; "abcd" := LevelDebug ]};
     Labels := {[ "app" := "demo" ]} |}.

(** ** The environment, for [configFromEnv] *)

(** The separators [configFromEnv] splits at: [","], ["+"] and ["="]. *)
Definition sep_comma : Ascii.ascii := Ascii.ascii_of_nat 44.
Definition sep_plus : Ascii.ascii := Ascii.ascii_of_nat 43.
Definition sep_equal : Ascii.ascii := Ascii.ascii_of_nat 61.

(** [strings.Split(s, sep)] for a one-byte [sep]: the pieces of [s] between
    the occurrences of [sep]; one piece, [s] itself, when there is none. *)
Fixpoint Split (s : string) (sep : Ascii.ascii) : list string :=
  match s with
  | EmptyString => [EmptyString]
  | String c s' =>
      if Ascii.eqb c sep then EmptyString :: Split s' sep
      else
        match Split s' sep with
        | w :: ws => String c w :: ws
        | [] => [String c EmptyString]
        end
  end.

(** [strings.Cut(s, sep)]: [s] around its first [sep], if any. *)
Fixpoint Cut (s : string) (sep : Ascii.ascii) : option (string * string) :=
  match s with
  | EmptyString => None
  | String c s' =>
      if Ascii.eqb c sep then Some (EmptyString, s')
      else
        match Cut s' sep with
        | Some (before, after) => Some (String c before, after)
        | None => None
        end
  end.

(** [strings.SplitN(s, sep, n)] for a one-byte [sep] and [n >= 0]: at most
    [n] pieces, the last one the unsplit rest. *)
Fixpoint SplitN (s : string) (sep : Ascii.ascii) (n : nat) : list string :=
  match n with
  | 0 => []
  | S n' =>
      match n' with
      | 0 => [s]
      | S _ =>
          match Cut s sep with
          | Some (before, after) => before :: SplitN after sep n'
          | None => [s]
          end
      end
  end.

(** [strings.Join(pieces, sep)] for a one-byte [sep]. *)
Fixpoint Join (pieces : list string) (sep : Ascii.ascii) : string :=
  match pieces with
  | [] => EmptyString
  | [w] => w
  | w :: ws => String.append w (String sep (Join ws sep))
  end.

(** What [configFromEnv] prints on standard error. *)
Inductive EnvWarning :=
  | IgnoringUnrecognizedFormat (format : string)
  | ErrorSettingLogLevel (kvs : string) (err : error)
  | PleaseSpecifyFile
  | PleaseSpecifyURL
  | InvalidLabel (label : string).

(** Field updates of a [Config]. *)
Definition with_Format (x : LogFormat) (cfg : Config) : Config :=
  {| Format := x; Stderr := Stderr cfg; Stdout := Stdout cfg; File := File cfg;
     URL := URL cfg; Level := Level cfg; SubsystemLevels := SubsystemLevels cfg;
     Labels := Labels cfg |}.

Definition with_Stderr (x : bool) (cfg : Config) : Config :=
  {| Format := Format cfg; Stderr := x; Stdout := Stdout cfg; File := File cfg;
     URL := URL cfg; Level := Level cfg; SubsystemLevels := SubsystemLevels cfg;
     Labels := Labels cfg |}.

Definition with_Stdout (x : bool) (cfg : Config) : Config :=
  {| Format := Format cfg; Stderr := Stderr cfg; Stdout := x; File := File cfg;
     URL := URL cfg; Level := Level cfg; SubsystemLevels := SubsystemLevels cfg;
     Labels := Labels cfg |}.

Definition with_File (x : string) (cfg : Config) : Config :=
  {| Format := Format cfg; Stderr := Stderr cfg; Stdout := Stdout cfg; File := x;
     URL := URL cfg; Level := Level cfg; SubsystemLevels := SubsystemLevels cfg;
     Labels := Labels cfg |}.

Definition with_URL (x : string) (cfg : Config) : Config :=
  {| Format := Format cfg; Stderr := Stderr cfg; Stdout := Stdout cfg;
     File := File cfg; URL := x; Level := Level cfg;
     SubsystemLevels := SubsystemLevels cfg; Labels := Labels cfg |}.

Definition with_Level (x : LogLevel) (cfg : Config) : Config :=
  {| Format := Format cfg; Stderr := Stderr cfg; Stdout := Stdout cfg;
     File := File cfg; URL := URL cfg; Level := x;
     SubsystemLevels := SubsystemLevels cfg; Labels := Labels cfg |}.

Definition with_SubsystemLevel (name : string) (x : LogLevel) (cfg : Config)
  : Config :=
  {| Format := Format cfg; Stderr := Stderr cfg; Stdout := Stdout cfg;
     File := File cfg; URL := URL cfg; Level := Level cfg;
     SubsystemLevels := <[name := x]> (SubsystemLevels cfg);
     Labels := Labels cfg |}.

Definition with_Label (k v : string) (cfg : Config) : Config :=
  {| Format := Format cfg; Stderr := Stderr cfg; Stdout := Stdout cfg;
     File := File cfg; URL := URL cfg; Level := Level cfg;
     SubsystemLevels := SubsystemLevels cfg;
     Labels := <[k := v]> (Labels cfg) |}.

(** The names of the variables (setup.go:15-24). *)
Definition envLoggingLvl : string := "GOLOG_LOG_LEVEL".
Definition envLoggingFmt : string := "GOLOG_LOG_FMT".
Definition envLoggingFile : string := "GOLOG_FILE".
Definition envLoggingURL : string := "GOLOG_URL".
Definition envLoggingOutput : string := "GOLOG_OUTPUT".
Definition envLoggingLabels : string := "GOLOG_LOG_LABELS".

(** An environment for the examples: a default level, two overrides, two
    entries that do not parse; a file; stdout requested; labels. *)
Definition env_demo (name : string) : string :=
  if decide (name = envLoggingLvl) then "debug,svc=info,bogus,db=oops,warn,svc=error"
  else if decide (name = envLoggingFile) then "/var/log/app.log"
  else if decide (name = envLoggingOutput) then "stdout+file"
  else if decide (name = envLoggingLabels) then "app=demo,dc,a=b=c,dc=sjc-1"
  else "".

(** No variable is set. *)
Definition env_empty (name : string) : string := "".

(** Standard error is a terminal, nothing else is; no path opens. *)
Definition IsTerminal_stderr (fd : nat) : bool := fd =? 2.
Definition IsCygwinTerminal_never (fd : nat) : bool := false.
Definition OpenFile_none (p : string) : option nat := None.

(** [cfg_demo] with a sink that does not open, and with a file that does
    not resolve. *)
Definition cfg_unopenable : Config := with_URL "/dev/full/x" cfg_demo.

(** ** The operations of [log.go] and [setup.go] *)

Section Registry.

(** Go's [for k, v := range m] visits the entries of a map once each, in an
    order the language leaves open. *)
Variable range : ∀ {A : Type}, gmap string A → list (string * A).
Hypothesis range_perm : ∀ (A : Type) (m : gmap string A), range m ≡ₚ map_to_list m.

(** Functions of the package and of its libraries whose code is elsewhere:
    [LevelFromString] ([levels.go]), [normalizePath] (per platform),
    [regexp.Compile] with the [MatchString] method of its result, and [zap.Open], which yields
    the combined writer or fails. *)
Variable LevelFromString : string → LogLevel + error.
Variable normalizePath : string → string + error.
Variable Regexp : Type.
Variable regexp_Compile : string → Regexp + error.
Variable MatchString : Regexp → string → bool.
Variable zap_Open : list string → option (list string).

(** [getLogger] (log.go:102) *)
Definition getLogger (name : string) (st : State) : SugaredLogger * State :=
  match loggers st !! name with
  | Some log => (log, st)
  | None =>
      let '(level, st) :=
        match levels st !! name with
        | Some level => (level, st)
        | None =>
            let '(level, st) := NewAtomicLevelAt (defaultLevel st) st in
            (level, set_levels (fun m => <[name := level]> m) st)
        end in
      let log := {| lg_name := name; lg_level := level;
                    lg_addCaller := true; lg_callerSkip := 0 |} in
      (log, set_loggers (fun m => <[name := log]> m) st)
  end.

(** [Logger] (log.go:11) *)
Definition Logger (system : string) (st : State) : ZapEventLogger * State :=
  let '(system, st) :=
    if String.length system =? 0 then
      let '(setuplog, st) := getLogger "setup-logger" st in
      let st := emit setuplog LevelError "Missing name parameter" st in
      ("undefined", st)
    else (system, st) in
  let '(logger, st) := getLogger system st in
  let skipLogger := AddCallerSkip 1 logger in
  ({| system := system; sugared := logger; skipLogger := skipLogger |}, st).

(** [setAllLoggerLevel] (setup.go:227) *)
Definition setAllLoggerLevel (lvl : LogLevel) (st : State) : State :=
  foldl (fun st kv => SetLevel kv.2 lvl st) st (range (levels st)).

(** [setPrimaryCore] (setup.go:218) *)
Definition setPrimaryCore (core : CoreRef) (st : State) : State :=
  let cores :=
    match primaryCore st with
    | Some _ => ReplaceCore (primaryCore st) core (loggerCore st)
    | None => AddCore core (loggerCore st)
    end in
  set_cores core cores st.

(** [SetLogLevel] (log.go:30) *)
Definition SetLogLevel (name level : string) (st : State) : option error * State :=
  match LevelFromString level with
  | inr err => (Some err, st)
  | inl lvl =>
      if decide (name = "*") then (None, setAllLoggerLevel lvl st)
      else
        match levels st !! name with
        | None => (Some ErrNoSuchLogger, st)
        | Some a => (None, SetLevel a lvl st)
        end
  end.

(** One turn of the loop of [SetLogLevelRegex] (log.go:71-75).  Indexing
    [levels] at a missing key gives the zero [AtomicLevel], whose [SetLevel]
    dereferences nil. *)
Definition regex_step (rem : Regexp) (lvl : LogLevel) (o : outcome unit)
  (kv : string * SugaredLogger) : outcome unit :=
  match o with
  | Panicked st => Panicked st
  | Returned _ st =>
      if MatchString rem kv.1 then
        match levels st !! kv.1 with
        | Some a => Returned tt (SetLevel a lvl st)
        | None => Panicked st
        end
      else Returned tt st
  end.

(** [SetLogLevelRegex] (log.go:57) *)
Definition SetLogLevelRegex (e l : string) (st : State) : outcome (option error) :=
  match LevelFromString l with
  | inr err => Returned (Some err) st
  | inl lvl =>
      match regexp_Compile e with
      | inr err => Returned (Some err) st
      | inl rem =>
          match foldl (regex_step rem lvl) (Returned tt st) (range (loggers st)) with
          | Returned _ st => Returned None st
          | Panicked st => Panicked st
          end
      end
  end.

(** [SetPrimaryCore] (log.go:81) *)
Definition SetPrimaryCore (core : CoreRef) (st : State) : State :=
  setPrimaryCore core st.

(** [GetSubsystems] (log.go:90) *)
Definition GetSubsystems (st : State) : list string :=
  foldl (fun subs kv => subs ++ [kv.1]) [] (range (loggers st)).

(** One turn of the last loop of [SetupLogging] (setup.go:97-103). *)
Definition subsystem_step (st : State) (kv : string * LogLevel) : State :=
  match levels st !! kv.1 with
  | Some leveler => SetLevel leveler kv.2 st
  | None =>
      let '(a, st) := NewAtomicLevelAt kv.2 st in
      set_levels (fun m => <[kv.1 := a]> m) st
  end.

(** [SetupLogging] (setup.go:55) *)
Definition SetupLogging (cfg : Config) (st : State) : outcome unit :=
  let st := set_primaryFormat (Format cfg) st in
  let st := set_defaultLevel (Level cfg) st in
  let outputPaths := [] in
  let outputPaths :=
    if Stderr cfg then outputPaths ++ ["stderr"] else outputPaths in
  let outputPaths :=
    if Stdout cfg then outputPaths ++ ["stdout"] else outputPaths in
  let '(outputPaths, st) :=
    if 0 <? String.length (File cfg) then
      match normalizePath (File cfg) with
      | inr _ =>
          (outputPaths,
           print_stderr (FailedToResolveLogPath (File cfg) outputPaths) st)
      | inl path => (outputPaths ++ [path], st)
      end
    else (outputPaths, st) in
  let outputPaths :=
    if 0 <? String.length (URL cfg) then outputPaths ++ [URL cfg]
    else outputPaths in
  match zap_Open outputPaths with
  | None => Panicked st
  | Some outputs =>
      let newPrimaryCore := newCore (primaryFormat st) outputs LevelDebug in
      let newPrimaryCore :=
        foldl (fun c kv => core_With c [(kv.1, kv.2)]) newPrimaryCore
              (range (Labels cfg)) in
      let st := setPrimaryCore (Some newPrimaryCore) st in
      let st := setAllLoggerLevel (defaultLevel st) st in
      Returned tt (foldl subsystem_step st (range (SubsystemLevels cfg)))
  end.

(** The calls a client can make, and the state each leaves behind. *)
Inductive Op :=
  | OpLogger (system : string)
  | OpSetupLogging (cfg : Config)
  | OpSetLogLevel (name level : string)
  | OpSetLogLevelRegex (e l : string)
  | OpSetPrimaryCore (core : CoreRef)
  | OpGetSubsystems
  | OpEmit (h : ZapEventLogger) (l : LogLevel) (msg : string).

Definition run (op : Op) (st : State) : State :=
  match op with
  | OpLogger system => (Logger system st).2
  | OpSetupLogging cfg => state_after (SetupLogging cfg st)
  | OpSetLogLevel name level => (SetLogLevel name level st).2
  | OpSetLogLevelRegex e l => state_after (SetLogLevelRegex e l st)
  | OpSetPrimaryCore core => SetPrimaryCore core st
  | OpGetSubsystems => st
  | OpEmit h l msg => emit (skipLogger h) l msg st
  end.

Definition run_all (ops : list Op) (st : State) : State := foldl (fun st op => run op st) st ops.

(** ** The initial configuration: [configFromEnv] and [init] *)

(** The process environment ([os.Getenv]), the terminal probes of
    [go-isatty] on a file descriptor, and [os.OpenFile(p, os.O_WRONLY, 0)],
    which gives the descriptor of the opened file or fails. *)
Variable Getenv : string → string.
Variable IsTerminal : nat → bool.
Variable IsCygwinTerminal : nat → bool.
Variable OpenFile_WRONLY : string → option nat.

(** The descriptors of [os.Stdout] and [os.Stderr]. *)
Definition Stdout_fd : nat := 1.
Definition Stderr_fd : nat := 2.

(** [isTerm] (setup.go:205) *)
Definition isTerm (fd : nat) : bool := IsTerminal fd || IsCygwinTerminal fd.

(** [pathIsTerm] (setup.go:209): no file is created; a path that does not
    open is no terminal. *)
Definition pathIsTerm (p : string) : bool :=
  match OpenFile_WRONLY p with
  | Some f => isTerm f
  | None => false
  end.

(** One turn of the loop over [GOLOG_LOG_LEVEL] (setup.go:136-149). *)
Definition level_entry (acc : Config * list EnvWarning) (kvs : string)
  : Config * list EnvWarning :=
  let '(cfg, out) := acc in
  let kv := SplitN kvs sep_equal 2 in
  match LevelFromString (nth (length kv - 1) kv "") with
  | inr err => (cfg, out ++ [ErrorSettingLogLevel kvs err])
  | inl lvl =>
      match length kv with
      | 1 => (with_Level lvl cfg, out)
      | 2 => (with_SubsystemLevel (nth 0 kv "") lvl cfg, out)
      | _ => (cfg, out)
      end
  end.

(** One turn of the loop over [GOLOG_OUTPUT] (setup.go:162-177). *)
Definition output_option (acc : Config * list EnvWarning) (opt : string)
  : Config * list EnvWarning :=
  let '(cfg, out) := acc in
  if decide (opt = "stdout") then (with_Stdout true cfg, out)
  else if decide (opt = "stderr") then (with_Stderr true cfg, out)
  else if decide (opt = "file") then
    (cfg, if decide (File cfg = "") then out ++ [PleaseSpecifyFile] else out)
  else if decide (opt = "url") then
    (cfg, if decide (URL cfg = "") then out ++ [PleaseSpecifyURL] else out)
  else (cfg, out).

(** One turn of the loop over [GOLOG_LOG_LABELS] (setup.go:192-199). *)
Definition label_entry (acc : Config * list EnvWarning) (label : string)
  : Config * list EnvWarning :=
  let '(cfg, out) := acc in
  let kv := Split label sep_equal in
  if decide (length kv ≠ 2) then (cfg, out ++ [InvalidLabel label])
  else (with_Label (nth 0 kv "") (nth 1 kv "") cfg, out).

(** [configFromEnv] (setup.go:107), with what it prints. *)
Definition configFromEnv : Config * list EnvWarning :=
  let cfg := {| Format := FormatColorizedOutput; Stderr := true;
                Stdout := false; File := ""; URL := "";
                Level := LevelError; SubsystemLevels := ∅; Labels := ∅ |} in
  let out : list EnvWarning := [] in
  let format := Getenv envLoggingFmt in
  let '(cfg, noExplicitFormat, out) :=
    if decide (format = "color") then
      (with_Format FormatColorizedOutput cfg, false, out)
    else if decide (format = "nocolor") then
      (with_Format FormatPlaintextOutput cfg, false, out)
    else if decide (format = "json") then
      (with_Format FormatJSONOutput cfg, false, out)
    else
      (cfg, true,
       if decide (format ≠ "") then out ++ [IgnoringUnrecognizedFormat format]
       else out) in
  let lvl := Getenv envLoggingLvl in
  let '(cfg, out) :=
    if decide (lvl ≠ "") then foldl level_entry (cfg, out) (Split lvl sep_comma)
    else (cfg, out) in
  let cfg := with_File (Getenv envLoggingFile) cfg in
  let cfg := if decide (File cfg ≠ "") then with_Stderr false cfg else cfg in
  let cfg := with_URL (Getenv envLoggingURL) cfg in
  let output := Getenv envLoggingOutput in
  let outputOptions := Split output sep_plus in
  let '(cfg, out) := foldl output_option (cfg, out) outputOptions in
  let cfg :=
    if noExplicitFormat
       && negb (Stdout cfg && isTerm Stdout_fd)
       && negb (Stderr cfg && isTerm Stderr_fd)
       && negb (bool_decide (File cfg ≠ "") && pathIsTerm (File cfg))
    then with_Format FormatPlaintextOutput cfg
    else cfg in
  let labels := Getenv envLoggingLabels in
  let '(cfg, out) :=
    if decide (labels ≠ "") then
      foldl label_entry (cfg, out) (Split labels sep_comma)
    else (cfg, out) in
  (cfg, out).

(** [init] (setup.go:47), on the state left by the [var] initialisers. *)
Definition init : outcome unit := SetupLogging configFromEnv.1 initial.

(** Reading an entry list from its end: what a bare level entry, an
    override for [name], a label for [key] contribute. *)
Definition bare_level (kvs : string) : option LogLevel :=
  match SplitN kvs sep_equal 2 with
  | [v] => match LevelFromString v with inl lvl => Some lvl | inr _ => None end
  | _ => None
  end.

Definition override_level (name kvs : string) : option LogLevel :=
  match SplitN kvs sep_equal 2 with
  | [k; v] =>
      if decide (k = name) then
        match LevelFromString v with inl lvl => Some lvl | inr _ => None end
      else None
  | _ => None
  end.

Definition label_value (key label : string) : option string :=
  match Split label sep_equal with
  | [k; v] => if decide (k = key) then Some v else None
  | _ => None
  end.

(** The entries of a comma-separated variable; none when it is unset. *)
Definition entries (value : string) : list string :=
  if decide (value ≠ "") then Split value sep_comma else [].

(** [s] is [st] but for the contents of the level cells. *)
Definition only_cells_differ (st s : State) : Prop :=
  loggers s = loggers st ∧ levels s = levels st
  ∧ length (heap s) = length (heap st)
  ∧ defaultLevel s = defaultLevel st
  ∧ primaryCore s = primaryCore st ∧ loggerCore s = loggerCore st
  ∧ written s = written st ∧ stderr s = stderr st.

(** What each part of the environment makes [configFromEnv] print. *)
Definition format_warning (format : string) : list EnvWarning :=
  if decide (format = "color") then []
  else if decide (format = "nocolor") then []
  else if decide (format = "json") then []
  else if decide (format ≠ "") then [IgnoringUnrecognizedFormat format]
  else [].

Definition level_warning (kvs : string) : option EnvWarning :=
  let kv := SplitN kvs sep_equal 2 in
  match LevelFromString (nth (length kv - 1) kv "") with
  | inr err => Some (ErrorSettingLogLevel kvs err)
  | inl _ => None
  end.

Definition output_warning (file url opt : string) : option EnvWarning :=
  if decide (opt = "file") then
    if decide (file = "") then Some PleaseSpecifyFile else None
  else if decide (opt = "url") then
    if decide (url = "") then Some PleaseSpecifyURL else None
  else None.

Definition label_warning (label : string) : option EnvWarning :=
  if decide (length (Split label sep_equal) ≠ 2) then Some (InvalidLabel label)
  else None.

(** ** The registry invariant *)

(** Every holder in [levels] points to an allocated cell, no two names share
    a cell, and a logger filters by the holder registered under its name. *)
Record wf (st : State) : Prop := {
  wf_alloc : ∀ n a, levels st !! n = Some a → a < length (heap st);
  wf_inj : ∀ n1 n2 a,
    levels st !! n1 = Some a → levels st !! n2 = Some a → n1 = n2;
  wf_logger : ∀ n lg,
    loggers st !! n = Some lg → lg_name lg = n ∧ levels st !! n = Some (lg_level lg)
}.

(** The registry only grows: entries present in [st] are those of [st']. *)
Definition grows (st st' : State) : Prop :=
  loggers st ⊆ loggers st' ∧ levels st ⊆ levels st'.

(** Storing [lvl] into each of the cells [cells], one after the other. *)
Definition fill (lvl : LogLevel) (cells : list nat) (h : list LogLevel)
  : list LogLevel :=
  foldl (fun h a => <[a := lvl]> h) h cells.

(** The cells the loop of [SetLogLevelRegex] stores into: those of the
    visited loggers whose name matches. *)
Definition matched_cells (rem : Regexp) (st : State)
  (kvs : list (string * SugaredLogger)) : list nat :=
  omap (fun kv => if MatchString rem kv.1 then levels st !! kv.1 else None) kvs.

(** The list [SetupLogging] hands to [zap.Open], in closed form. *)
Definition outputPaths (cfg : Config) : list string :=
  (if Stderr cfg then ["stderr"] else []) ++
  (if Stdout cfg then ["stdout"] else []) ++
  (if 0 <? String.length (File cfg) then
     match normalizePath (File cfg) with inl path => [path] | inr _ => [] end
   else []) ++
  (if 0 <? String.length (URL cfg) then [URL cfg] else []).

(** The order the specification gives: "file, explicit-stdout,
    explicit-stderr, URL-sink". *)
Definition outputPaths_spec (cfg : Config) : list string :=
  (if 0 <? String.length (File cfg) then
     match normalizePath (File cfg) with inl path => [path] | inr _ => [] end
   else []) ++
  (if Stdout cfg then ["stdout"] else []) ++
  (if Stderr cfg then ["stderr"] else []) ++
  (if 0 <? String.length (URL cfg) then [URL cfg] else []).

(** ** Cells *)

Lemma fill_length lvl cells h : length (fill lvl cells h) = length h.
Proof.
  revert h. induction cells as [|a cells IH]; intros h; simpl; [done|].
  rewrite IH. apply length_insert.
Qed.

Lemma fill_lookup_elem lvl cells h i :
  i ∈ cells → i < length h → fill lvl cells h !! i = Some lvl.
Proof.
  revert h. induction cells as [|a cells IH]; intros h Hin Hlt.
  - by apply elem_of_nil in Hin.
  - simpl. destruct (decide (i ∈ cells)) as [Hc|Hc].
    + apply IH; [done|]. by rewrite length_insert.
    + apply elem_of_cons in Hin as [->|?]; [|done].
      assert (Hkeep : ∀ h', h' !! a = Some lvl → fill lvl cells h' !! a = Some lvl).
      { clear -Hc. induction cells as [|b cells IH]; intros h' Hh'; simpl; [done|].
        apply IH.
        - intros ?. apply Hc. by right.
        - rewrite list_lookup_insert_ne; [done|].
          intros ->. apply Hc. by left. }
      apply Hkeep. by apply list_lookup_insert_eq.
Qed.

Lemma fill_lookup_other lvl cells h i :
  i ∉ cells → fill lvl cells h !! i = h !! i.
Proof.
  revert h. induction cells as [|a cells IH]; intros h Hin; simpl; [done|].
  rewrite IH.
  - apply list_lookup_insert_ne. intros ->. apply Hin. by left.
  - intros ?. apply Hin. by right.
Qed.

(** ** States that differ in their cells only *)

Lemma set_heap_id st : set_heap (fun h => h) st = st.
Proof. by destruct st. Qed.

Lemma foldl_SetLevel lvl {K} (kvs : list (K * AtomicLevel)) st :
  foldl (fun st kv => SetLevel kv.2 lvl st) st kvs
  = set_heap (fill lvl kvs.*2) st.
Proof.
  revert st. induction kvs as [|kv kvs IH]; intros st; simpl.
  - by destruct st.
  - by rewrite IH.
Qed.

Lemma setAllLoggerLevel_heap lvl st :
  setAllLoggerLevel lvl st = set_heap (fill lvl (range (levels st)).*2) st.
Proof. apply foldl_SetLevel. Qed.

Lemma range_elem {A} (m : gmap string A) k v :
  (k, v) ∈ range m ↔ m !! k = Some v.
Proof. rewrite range_perm. apply elem_of_map_to_list. Qed.

Lemma range_NoDup {A} (m : gmap string A) : NoDup (range m).*1.
Proof. rewrite range_perm. apply NoDup_fst_map_to_list. Qed.

Lemma wf_same_registry st st' :
  loggers st' = loggers st → levels st' = levels st →
  length (heap st) ≤ length (heap st') → wf st → wf st'.
Proof.
  intros Hl Hv Hh [Ha Hi Hg]. split.
  - intros n a. rewrite Hv. intros ?%Ha. lia.
  - intros n1 n2 a. rewrite Hv. apply Hi.
  - intros n lg. rewrite Hl, Hv. apply Hg.
Qed.

Lemma wf_initial : wf initial.
Proof. split; intros *; simpl; by rewrite ?lookup_empty. Qed.

Lemma level_of_fill lvl cells st n a :
  wf st → levels st !! n = Some a →
  level_of n (set_heap (fill lvl cells) st)
  = if decide (a ∈ cells) then Some lvl else level_of n st.
Proof.
  intros Hwf Hn. unfold level_of, GetLevel. simpl. rewrite Hn. simpl.
  case_decide.
  - apply fill_lookup_elem; [done|]. by eapply wf_alloc.
  - by apply fill_lookup_other.
Qed.

Lemma level_of_fill_None lvl cells st n :
  levels st !! n = None → level_of n (set_heap (fill lvl cells) st) = None.
Proof. intros Hn. unfold level_of. simpl. by rewrite Hn. Qed.

Lemma wf_fill lvl cells st : wf st → wf (set_heap (fill lvl cells) st).
Proof.
  apply wf_same_registry; try done. simpl. by rewrite fill_length.
Qed.

Lemma grows_refl st : grows st st.
Proof. by split. Qed.

Lemma grows_trans st1 st2 st3 : grows st1 st2 → grows st2 st3 → grows st1 st3.
Proof. intros [? ?] [? ?]. split; by etrans. Qed.

Lemma grows_same st st' :
  loggers st' = loggers st → levels st' = levels st → grows st st'.
Proof. intros Hl Hv. unfold grows. by rewrite Hl, Hv. Qed.

Lemma getLogger_hit name lg st :
  loggers st !! name = Some lg → getLogger name st = (lg, st).
Proof. intros H. unfold getLogger. by rewrite H. Qed.

Lemma getLogger_miss name st :
  loggers st !! name = None →
  getLogger name st =
    match levels st !! name with
    | Some a =>
        let lg := {| lg_name := name; lg_level := a; lg_addCaller := true; lg_callerSkip := 0 |} in
        (lg, set_loggers (fun m => <[name := lg]> m) st)
    | None =>
        let lg := {| lg_name := name; lg_level := length (heap st); lg_addCaller := true; lg_callerSkip := 0 |} in
        (lg, set_loggers (fun m => <[name := lg]> m)
               (set_levels (fun m => <[name := length (heap st)]> m)
                  (set_heap (fun h => h ++ [defaultLevel st]) st)))
    end.
Proof. intros H. unfold getLogger. rewrite H. by destruct (levels st !! name). Qed.

Lemma getLogger_registered name st :
  wf st →
  loggers (getLogger name st).2 !! name = Some (getLogger name st).1
  ∧ levels (getLogger name st).2 !! name = Some (lg_level (getLogger name st).1)
  ∧ lg_name (getLogger name st).1 = name.
Proof.
  intros Hwf. destruct (loggers st !! name) as [lg|] eqn:Hl.
  - rewrite (getLogger_hit _ _ _ Hl). simpl.
    destruct (wf_logger _ Hwf _ _ Hl) as [? ?]. done.
  - rewrite (getLogger_miss _ _ Hl).
    destruct (levels st !! name) as [a|] eqn:Hv; simpl;
      rewrite ?lookup_insert_eq; done.
Qed.

Lemma getLogger_grows name st : grows st (getLogger name st).2.
Proof.
  destruct (loggers st !! name) as [lg|] eqn:Hl.
  - rewrite (getLogger_hit _ _ _ Hl). apply grows_refl.
  - rewrite (getLogger_miss _ _ Hl).
    destruct (levels st !! name) as [a|] eqn:Hv; split; simpl;
      try done; by apply insert_subseteq.
Qed.

Lemma getLogger_other name st m :
  m ≠ name →
  loggers (getLogger name st).2 !! m = loggers st !! m
  ∧ levels (getLogger name st).2 !! m = levels st !! m.
Proof.
  intros Hne. destruct (loggers st !! name) as [lg|] eqn:Hl.
  - by rewrite (getLogger_hit _ _ _ Hl).
  - rewrite (getLogger_miss _ _ Hl).
    destruct (levels st !! name) as [a|] eqn:Hv; simpl;
      by rewrite ?lookup_insert_ne.
Qed.

Lemma getLogger_wf name st : wf st → wf (getLogger name st).2.
Proof.
  intros Hwf. destruct (loggers st !! name) as [lg|] eqn:Hl.
  - by rewrite (getLogger_hit _ _ _ Hl).
  - rewrite (getLogger_miss _ _ Hl).
    destruct Hwf as [Ha Hi Hg].
    destruct (levels st !! name) as [a|] eqn:Hv; simpl; split; simpl.
    + done.
    + done.
    + intros n lg. destruct (decide (n = name)) as [->|Hne].
      * rewrite lookup_insert_eq. by intros [= <-].
      * rewrite lookup_insert_ne by done. apply Hg.
    + intros n a. rewrite length_app. simpl.
      destruct (decide (n = name)) as [->|Hne].
      * rewrite lookup_insert_eq. intros [= <-]. lia.
      * rewrite lookup_insert_ne by done. intros ?%Ha. lia.
    + intros n1 n2 a.
      destruct (decide (n1 = name)) as [->|Hne1];
      destruct (decide (n2 = name)) as [->|Hne2];
        rewrite ?lookup_insert_eq, ?lookup_insert_ne by done; try done.
      * intros [= <-] ?%Ha. lia.
      * intros ?%Ha [= <-]. lia.
      * apply Hi.
    + intros n lg. destruct (decide (n = name)) as [->|Hne].
      * rewrite !lookup_insert_eq. by intros [= <-].
      * rewrite !lookup_insert_ne by done. apply Hg.
Qed.

(** Existing holders keep their level when a logger is obtained. *)
Lemma getLogger_level_of name st m :
  wf st → is_Some (levels st !! m) →
  level_of m (getLogger name st).2 = level_of m st.
Proof.
  intros Hwf [a Hm]. destruct (loggers st !! name) as [lg|] eqn:Hl.
  - by rewrite (getLogger_hit _ _ _ Hl).
  - rewrite (getLogger_miss _ _ Hl).
    destruct (levels st !! name) as [b|] eqn:Hv; simpl; [done|].
    unfold level_of, GetLevel. simpl.
    assert (m ≠ name) by congruence.
    rewrite lookup_insert_ne by done. rewrite Hm. simpl.
    apply lookup_app_l. by eapply wf_alloc.
Qed.

(** A name without a holder starts at the process default. *)
Lemma getLogger_default name st :
  wf st → levels st !! name = None →
  level_of name (getLogger name st).2 = Some (defaultLevel st).
Proof.
  intros Hwf Hv.
  assert (Hl : loggers st !! name = None).
  { destruct (loggers st !! name) as [lg|] eqn:Hl; [|done].
    destruct (wf_logger _ Hwf _ _ Hl). congruence. }
  rewrite (getLogger_miss _ _ Hl), Hv. unfold level_of, GetLevel. simpl.
  rewrite lookup_insert_eq. simpl.
  rewrite lookup_app_r by done. by rewrite Nat.sub_diag.
Qed.

Lemma getLogger_frame name st :
  defaultLevel (getLogger name st).2 = defaultLevel st
  ∧ written (getLogger name st).2 = written st.
Proof.
  destruct (loggers st !! name) as [lg|] eqn:Hl.
  - by rewrite (getLogger_hit _ _ _ Hl).
  - rewrite (getLogger_miss _ _ Hl). by destruct (levels st !! name).
Qed.

(** ** Emitting, and the facade *)

Lemma emit_registry lg l msg st :
  loggers (emit lg l msg st) = loggers st
  ∧ levels (emit lg l msg st) = levels st
  ∧ heap (emit lg l msg st) = heap st
  ∧ defaultLevel (emit lg l msg st) = defaultLevel st.
Proof. unfold emit. by destruct (Enabled _ _ _). Qed.

Lemma emit_wf lg l msg st : wf st → wf (emit lg l msg st).
Proof.
  destruct (emit_registry lg l msg st) as (Hl & Hv & Hh & _).
  apply wf_same_registry; try done. by rewrite Hh.
Qed.

Lemma emit_level_of lg l msg st n : level_of n (emit lg l msg st) = level_of n st.
Proof.
  destruct (emit_registry lg l msg st) as (Hl & Hv & Hh & _).
  unfold level_of, GetLevel. by rewrite Hv, Hh.
Qed.

Lemma emit_grows lg l msg st : grows st (emit lg l msg st).
Proof.
  destruct (emit_registry lg l msg st) as (Hl & Hv & _). by apply grows_same.
Qed.

(** [Logger] on a non-empty name is [getLogger] plus the wrapping. *)
Lemma Logger_named name st :
  name ≠ "" →
  Logger name st =
    ({| system := name; sugared := (getLogger name st).1;
        skipLogger := AddCallerSkip 1 (getLogger name st).1 |},
     (getLogger name st).2).
Proof.
  intros Hne. unfold Logger.
  destruct name as [|c name]; [done|]. simpl.
  by destruct (getLogger (String c name) st).
Qed.

(** [Logger ""] goes through the bootstrap logger first. *)
Lemma Logger_empty st :
  Logger "" st =
    let st1 := (getLogger "setup-logger" st).2 in
    let st2 := emit (getLogger "setup-logger" st).1 LevelError
                 "Missing name parameter" st1 in
    ({| system := "undefined"; sugared := (getLogger "undefined" st2).1;
        skipLogger := AddCallerSkip 1 (getLogger "undefined" st2).1 |},
     (getLogger "undefined" st2).2).
Proof.
  unfold Logger. simpl.
  destruct (getLogger "setup-logger" st) as [lg0 st1]. simpl.
  by destruct (getLogger "undefined" _).
Qed.

Lemma Logger_wf name st : wf st → wf (Logger name st).2.
Proof.
  intros Hwf. destruct (decide (name = "")) as [->|Hne].
  - rewrite Logger_empty. simpl.
    by apply getLogger_wf, emit_wf, getLogger_wf.
  - rewrite Logger_named by done. simpl. by apply getLogger_wf.
Qed.

Lemma Logger_grows name st : grows st (Logger name st).2.
Proof.
  destruct (decide (name = "")) as [->|Hne].
  - rewrite Logger_empty. simpl.
    eapply grows_trans; [apply getLogger_grows|].
    eapply grows_trans; [apply emit_grows|]. apply getLogger_grows.
  - rewrite Logger_named by done. simpl. apply getLogger_grows.
Qed.

(** ** The primary core *)

Lemma setPrimaryCore_registry core st :
  loggers (setPrimaryCore core st) = loggers st
  ∧ levels (setPrimaryCore core st) = levels st
  ∧ heap (setPrimaryCore core st) = heap st
  ∧ defaultLevel (setPrimaryCore core st) = defaultLevel st
  ∧ primaryCore (setPrimaryCore core st) = core.
Proof. done. Qed.

(** ** Level control *)

Lemma setAllLoggerLevel_registry lvl st :
  loggers (setAllLoggerLevel lvl st) = loggers st
  ∧ levels (setAllLoggerLevel lvl st) = levels st
  ∧ length (heap (setAllLoggerLevel lvl st)) = length (heap st)
  ∧ defaultLevel (setAllLoggerLevel lvl st) = defaultLevel st.
Proof.
  rewrite setAllLoggerLevel_heap. simpl. by rewrite fill_length.
Qed.

Lemma setAllLoggerLevel_wf lvl st : wf st → wf (setAllLoggerLevel lvl st).
Proof. rewrite setAllLoggerLevel_heap. apply wf_fill. Qed.

(** The wildcard reaches every holder. *)
Lemma setAllLoggerLevel_level_of lvl st n :
  wf st → is_Some (levels st !! n) →
  level_of n (setAllLoggerLevel lvl st) = Some lvl.
Proof.
  intros Hwf [a Hn]. rewrite setAllLoggerLevel_heap.
  rewrite (level_of_fill _ _ _ _ a) by done.
  rewrite decide_True; [done|].
  apply list_elem_of_fmap. exists (n, a). split; [done|].
  by apply range_elem.
Qed.

Lemma SetLevel_wf a lvl st : wf st → wf (SetLevel a lvl st).
Proof. apply (wf_fill lvl [a]). Qed.

Lemma SetLevel_level_of a lvl st n b :
  wf st → levels st !! n = Some b →
  level_of n (SetLevel a lvl st) = if decide (b = a) then Some lvl else level_of n st.
Proof.
  intros Hwf Hn. change (SetLevel a lvl st) with (set_heap (fill lvl [a]) st).
  rewrite (level_of_fill _ _ _ _ b) by done.
  destruct (decide (b = a)) as [->|Hne].
  - rewrite decide_True; [done|]. by left.
  - rewrite decide_False; [done|]. by intros ->%list_elem_of_singleton.
Qed.

Lemma SetLogLevel_wf name level st : wf st → wf (SetLogLevel name level st).2.
Proof.
  intros Hwf. unfold SetLogLevel.
  destruct (LevelFromString level) as [lvl|err]; [|done].
  case_decide; simpl; [by apply setAllLoggerLevel_wf|].
  destruct (levels st !! name); simpl; [by apply SetLevel_wf|done].
Qed.

Lemma SetLogLevel_grows name level st : grows st (SetLogLevel name level st).2.
Proof.
  unfold SetLogLevel.
  destruct (LevelFromString level) as [lvl|err]; [|apply grows_refl].
  case_decide; simpl.
  - destruct (setAllLoggerLevel_registry lvl st) as (? & ? & _).
    by apply grows_same.
  - destruct (levels st !! name); simpl; [by apply grows_same|apply grows_refl].
Qed.

(** ** The loop of [SetLogLevelRegex] *)

Lemma regex_step_registry rem lvl o kv :
  loggers (state_after (regex_step rem lvl o kv)) = loggers (state_after o)
  ∧ levels (state_after (regex_step rem lvl o kv)) = levels (state_after o)
  ∧ length (heap (state_after (regex_step rem lvl o kv)))
    = length (heap (state_after o))
  ∧ defaultLevel (state_after (regex_step rem lvl o kv))
    = defaultLevel (state_after o).
Proof.
  destruct o as [[] st|st]; simpl; [|done].
  destruct (MatchString rem kv.1); [|done].
  destruct (levels st !! kv.1); simpl; [|done].
  by rewrite length_insert.
Qed.

Lemma regex_loop_registry rem lvl kvs o :
  loggers (state_after (foldl (regex_step rem lvl) o kvs)) = loggers (state_after o)
  ∧ levels (state_after (foldl (regex_step rem lvl) o kvs)) = levels (state_after o)
  ∧ length (heap (state_after (foldl (regex_step rem lvl) o kvs)))
    = length (heap (state_after o))
  ∧ defaultLevel (state_after (foldl (regex_step rem lvl) o kvs))
    = defaultLevel (state_after o).
Proof.
  revert o. induction kvs as [|kv kvs IH]; intros o; simpl; [done|].
  destruct (IH (regex_step rem lvl o kv)) as (-> & -> & -> & ->).
  apply regex_step_registry.
Qed.

(** On a registry whose loggers all have a holder the loop runs to its end,
    and stores the level into the cells of the matching loggers. *)
Lemma regex_loop rem lvl kvs st :
  (∀ kv, kv ∈ kvs → is_Some (levels st !! kv.1)) →
  foldl (regex_step rem lvl) (Returned tt st) kvs
  = Returned tt (set_heap (fill lvl (matched_cells rem st kvs)) st).
Proof.
  revert st. induction kvs as [|kv kvs IH]; intros st Hall; simpl.
  - by destruct st.
  - assert (Htl : ∀ kv', kv' ∈ kvs → is_Some (levels st !! kv'.1)).
    { intros kv' ?. apply Hall. by right. }
    unfold matched_cells. simpl.
    destruct (MatchString rem kv.1) eqn:Hm.
    + destruct (Hall kv) as [a Ha]; [by left|]. rewrite Ha. simpl.
      by rewrite (IH (SetLevel a lvl st)).
    + by rewrite IH.
Qed.

Lemma elem_of_matched_cells rem st kvs a :
  a ∈ matched_cells rem st kvs ↔
  ∃ kv, kv ∈ kvs ∧ MatchString rem kv.1 = true ∧ levels st !! kv.1 = Some a.
Proof.
  unfold matched_cells. rewrite list_elem_of_omap. split.
  - intros (kv & Hin & Hkv). exists kv. split; [done|].
    by destruct (MatchString rem kv.1).
  - intros (kv & Hin & Hm & Ha). exists kv. split; [done|]. by rewrite Hm.
Qed.

(** ** The last loop of [SetupLogging] *)

Lemma subsystem_step_grows st kv :
  grows st (subsystem_step st kv)
  ∧ loggers (subsystem_step st kv) = loggers st
  ∧ defaultLevel (subsystem_step st kv) = defaultLevel st.
Proof.
  unfold subsystem_step. destruct (levels st !! kv.1) eqn:Hv; simpl.
  - split; [by apply grows_same|done].
  - split; [|done]. split; simpl; [done|]. by apply insert_subseteq.
Qed.

Lemma subsystem_loop_grows kvs st :
  grows st (foldl subsystem_step st kvs)
  ∧ loggers (foldl subsystem_step st kvs) = loggers st
  ∧ defaultLevel (foldl subsystem_step st kvs) = defaultLevel st.
Proof.
  revert st. induction kvs as [|kv kvs IH]; intros st; simpl.
  - split; [apply grows_refl|done].
  - destruct (IH (subsystem_step st kv)) as (Hg & -> & ->).
    destruct (subsystem_step_grows st kv) as (Hg' & -> & ->).
    split; [|done]. by eapply grows_trans.
Qed.

Lemma subsystem_step_spec st n l :
  wf st →
  wf (subsystem_step st (n, l))
  ∧ length (heap st) ≤ length (heap (subsystem_step st (n, l)))
  ∧ level_of n (subsystem_step st (n, l)) = Some l
  ∧ (∀ m, m ≠ n →
       levels (subsystem_step st (n, l)) !! m = levels st !! m
       ∧ level_of m (subsystem_step st (n, l)) = level_of m st)
  ∧ (levels st !! n = None →
       levels (subsystem_step st (n, l)) !! n = Some (length (heap st))).
Proof.
  intros Hwf. unfold subsystem_step. simpl.
  destruct (levels st !! n) as [a|] eqn:Hv; simpl.
  - split; [by apply SetLevel_wf|].
    split; [by rewrite length_insert|].
    split; [by rewrite (SetLevel_level_of _ _ _ _ a), decide_True|].
    split; [|done]. intros m Hm. split; [done|].
    destruct (levels st !! m) as [b|] eqn:Hb.
    + rewrite (SetLevel_level_of _ _ _ _ b) by done.
      rewrite decide_False; [done|]. intros ->. apply Hm.
      by eapply wf_inj.
    + unfold level_of. simpl. by rewrite Hb.
  - assert (Hwf' := Hwf). destruct Hwf' as [Ha Hi Hg].
    split; [|split; [|split; [|split]]].
    + split; simpl.
      * intros m a. rewrite length_app. simpl.
        destruct (decide (m = n)) as [->|Hne].
        -- rewrite lookup_insert_eq. intros [= <-]. lia.
        -- rewrite lookup_insert_ne by done. intros ?%Ha. lia.
      * intros n1 n2 a.
        destruct (decide (n1 = n)) as [->|Hne1];
        destruct (decide (n2 = n)) as [->|Hne2];
          rewrite ?lookup_insert_eq, ?lookup_insert_ne by done; try done.
        -- intros [= <-] ?%Ha. lia.
        -- intros ?%Ha [= <-]. lia.
        -- apply Hi.
      * intros m lg Hm. destruct (Hg m lg Hm) as [? Hlv]. split; [done|].
        rewrite lookup_insert_ne; [done|]. congruence.
    + rewrite length_app. lia.
    + unfold level_of, GetLevel. simpl. rewrite lookup_insert_eq. simpl.
      rewrite lookup_app_r by done. by rewrite Nat.sub_diag.
    + intros m Hm. rewrite lookup_insert_ne by done. split; [done|].
      unfold level_of, GetLevel. simpl. rewrite lookup_insert_ne by done.
      destruct (levels st !! m) as [b|] eqn:Hb; simpl; [|done].
      apply lookup_app_l. by eapply Ha.
    + intros _. by rewrite lookup_insert_eq.
Qed.

Lemma subsystem_loop kvs st :
  NoDup kvs.*1 → wf st →
  wf (foldl subsystem_step st kvs)
  ∧ length (heap st) ≤ length (heap (foldl subsystem_step st kvs))
  ∧ (∀ n l, (n, l) ∈ kvs → level_of n (foldl subsystem_step st kvs) = Some l)
  ∧ (∀ m, m ∉ kvs.*1 →
       levels (foldl subsystem_step st kvs) !! m = levels st !! m
       ∧ level_of m (foldl subsystem_step st kvs) = level_of m st)
  ∧ (∀ n, n ∈ kvs.*1 → levels st !! n = None →
       ∃ a, levels (foldl subsystem_step st kvs) !! n = Some a
            ∧ length (heap st) ≤ a).
Proof.
  revert st. induction kvs as [|[n0 l0] kvs IH]; intros st Hnd Hwf; simpl.
  - split; [done|]. split; [done|]. split; [by intros ? ? ?%elem_of_nil|].
    split; [done|]. by intros ? ?%elem_of_nil.
  - simpl in Hnd. apply NoDup_cons in Hnd as [Hn0 Hnd].
    destruct (subsystem_step_spec st n0 l0 Hwf) as (Hwf1 & Hlen1 & Hlv1 & Hoth1 & Hnew1).
    destruct (IH _ Hnd Hwf1) as (Hwf2 & Hlen2 & Hset2 & Hoth2 & Hnew2).
    split; [done|]. split; [lia|]. split; [|split].
    + intros n l [[= -> ->]|Hin]%elem_of_cons.
      * destruct (Hoth2 n0 Hn0) as [_ ->]. done.
      * by apply Hset2.
    + intros m Hm. apply not_elem_of_cons in Hm as [Hne Hm].
      destruct (Hoth2 m Hm) as [-> ->]. by apply Hoth1.
    + intros n Hin Hnone. destruct (decide (n = n0)) as [->|Hne].
      * exists (length (heap st)). split; [|done].
        destruct (Hoth2 n0 Hn0) as [-> _]. by apply Hnew1.
      * apply elem_of_cons in Hin as [?|Hin]; [done|].
        destruct (Hnew2 n Hin) as (a & Ha & Hge).
        { destruct (Hoth1 n Hne) as [-> _]. done. }
        exists a. split; [done|lia].
Qed.

(** ** [SetupLogging], step by step *)

(** Up to the call of [zap.Open] only the format, the default level and the
    standard error change; then the core is swapped, every holder reset, and
    the overrides applied. *)
Lemma SetupLogging_unfold cfg st :
  ∃ st0,
    loggers st0 = loggers st ∧ levels st0 = levels st ∧ heap st0 = heap st
    ∧ defaultLevel st0 = Level cfg ∧ primaryFormat st0 = Format cfg
    ∧ written st0 = written st
    ∧ SetupLogging cfg st =
        match zap_Open (outputPaths cfg) with
        | None => Panicked st0
        | Some outputs =>
            let core :=
              foldl (fun c kv => core_With c [(kv.1, kv.2)])
                    (newCore (Format cfg) outputs LevelDebug)
                    (range (Labels cfg)) in
            Returned tt
              (foldl subsystem_step
                 (setAllLoggerLevel (Level cfg) (setPrimaryCore (Some core) st0))
                 (range (SubsystemLevels cfg)))
        end.
Proof.
  unfold SetupLogging, outputPaths.
  destruct (Stderr cfg), (Stdout cfg), (0 <? String.length (File cfg));
    try destruct (normalizePath (File cfg));
    destruct (0 <? String.length (URL cfg)); simpl;
    (eexists; split_and!; [..|reflexivity]; reflexivity).
Qed.

Lemma SetupLogging_wf cfg st : wf st → wf (state_after (SetupLogging cfg st)).
Proof.
  intros Hwf.
  destruct (SetupLogging_unfold cfg st) as (st0 & Hl & Hv & Hh & _ & _ & _ & ->).
  assert (Hwf0 : wf st0).
  { revert Hwf. apply wf_same_registry; try done. by rewrite Hh. }
  destruct (zap_Open _); simpl; [|done].
  apply subsystem_loop; [apply range_NoDup|].
  apply setAllLoggerLevel_wf.
  revert Hwf0. by apply wf_same_registry.
Qed.

Lemma SetupLogging_grows cfg st : grows st (state_after (SetupLogging cfg st)).
Proof.
  destruct (SetupLogging_unfold cfg st) as (st0 & Hl & Hv & Hh & _ & _ & _ & ->).
  destruct (zap_Open _); simpl; [|by apply grows_same].
  eapply grows_trans; [|apply subsystem_loop_grows].
  match goal with |- grows _ (setAllLoggerLevel ?l ?s) =>
    destruct (setAllLoggerLevel_registry l s) as (Hl' & Hv' & _) end.
  apply grows_same; [by rewrite Hl'|by rewrite Hv'].
Qed.

Lemma SetLogLevelRegex_state e l st :
  state_after (SetLogLevelRegex e l st) = st
  ∨ ∃ lvl rem,
      state_after (SetLogLevelRegex e l st)
      = state_after (foldl (regex_step rem lvl) (Returned tt st) (range (loggers st))).
Proof.
  unfold SetLogLevelRegex.
  destruct (LevelFromString l) as [lvl|]; [|by left].
  destruct (regexp_Compile e) as [rem|]; [|by left].
  right. exists lvl, rem. by destruct (foldl _ _ _).
Qed.

Lemma SetLogLevelRegex_wf e l st : wf st → wf (state_after (SetLogLevelRegex e l st)).
Proof.
  intros Hwf. destruct (SetLogLevelRegex_state e l st) as [->|(lvl & rem & ->)]; [done|].
  destruct (regex_loop_registry rem lvl (range (loggers st)) (Returned tt st))
    as (Hl & Hv & Hh & _).
  revert Hwf. apply wf_same_registry; try done. simpl in Hh. by rewrite Hh.
Qed.

Lemma SetLogLevelRegex_grows e l st : grows st (state_after (SetLogLevelRegex e l st)).
Proof.
  destruct (SetLogLevelRegex_state e l st) as [->|(lvl & rem & ->)]; [apply grows_refl|].
  destruct (regex_loop_registry rem lvl (range (loggers st)) (Returned tt st))
    as (Hl & Hv & _).
  by apply grows_same.
Qed.

(** ** Every call keeps the invariant, and the registry only grows *)

Lemma run_wf op st : wf st → wf (run op st).
Proof.
  intros Hwf. destruct op; simpl.
  - by apply Logger_wf.
  - by apply SetupLogging_wf.
  - by apply SetLogLevel_wf.
  - by apply SetLogLevelRegex_wf.
  - revert Hwf. by apply wf_same_registry.
  - done.
  - by apply emit_wf.
Qed.

Lemma run_grows op st : grows st (run op st).
Proof.
  destruct op; simpl.
  - apply Logger_grows.
  - apply SetupLogging_grows.
  - apply SetLogLevel_grows.
  - apply SetLogLevelRegex_grows.
  - by apply grows_same.
  - apply grows_refl.
  - apply emit_grows.
Qed.

Lemma run_all_wf ops st : wf st → wf (run_all ops st).
Proof.
  revert st. induction ops as [|op ops IH]; intros st Hwf; simpl; [done|].
  by apply IH, run_wf.
Qed.

Lemma run_all_grows ops st : grows st (run_all ops st).
Proof.
  revert st. induction ops as [|op ops IH]; intros st; simpl; [apply grows_refl|].
  eapply grows_trans; [apply run_grows|apply IH].
Qed.

(** Every state the package can reach from its initial one is well formed. *)
Lemma wf_reachable ops : wf (run_all ops initial).
Proof. apply run_all_wf, wf_initial. Qed.

Lemma grows_loggers st st' n lg :
  grows st st' → loggers st !! n = Some lg → loggers st' !! n = Some lg.
Proof. intros [H _] Hn. by eapply lookup_weaken. Qed.

Lemma grows_levels st st' n a :
  grows st st' → levels st !! n = Some a → levels st' !! n = Some a.
Proof. intros [_ H] Hn. by eapply lookup_weaken. Qed.

Lemma range_fst {A} (m : gmap string A) k :
  k ∈ (range m).*1 ↔ is_Some (m !! k).
Proof.
  rewrite list_elem_of_fmap. split.
  - intros ([k' v] & -> & Hin). exists v. by apply range_elem.
  - intros [v Hv]. exists (k, v). split; [done|]. by apply range_elem.
Qed.

(** ** The claims *)

(** C1.  [SetupLogging cfg] resets, then applies: when the sinks open, the
    call returns, and afterwards every name that had a level holder keeps
    that holder, at [cfg.Level] unless the name is a key of
    [cfg.SubsystemLevels], in which case at the level mapped there; every key
    of [cfg.SubsystemLevels] that had no holder gets one in a cell that did
    not exist before, set to the mapped level. *)
Theorem SetupLogging_reset_then_apply cfg st outputs :
  wf st →
  zap_Open (outputPaths cfg) = Some outputs →
  ∃ st',
    SetupLogging cfg st = Returned tt st'
    ∧ (∀ n a, levels st !! n = Some a →
         levels st' !! n = Some a
         ∧ level_of n st' = Some (default (Level cfg) (SubsystemLevels cfg !! n)))
    ∧ (∀ n l, levels st !! n = None → SubsystemLevels cfg !! n = Some l →
         ∃ a, levels st' !! n = Some a
              ∧ length (heap st) ≤ a
              ∧ level_of n st' = Some l).
Proof.
  intros Hwf Hopen.
  destruct (SetupLogging_unfold cfg st) as (st0 & Hl & Hv & Hh & _ & _ & _ & ->).
  rewrite Hopen. cbv zeta.
  set (core := foldl _ (newCore _ _ _) _).
  set (st1 := setPrimaryCore (Some core) st0).
  assert (Hwf1 : wf st1).
  { revert Hwf. apply wf_same_registry; try done. simpl. by rewrite Hh. }
  set (st2 := setAllLoggerLevel (Level cfg) st1).
  assert (Hwf2 : wf st2) by by apply setAllLoggerLevel_wf.
  destruct (setAllLoggerLevel_registry (Level cfg) st1) as (_ & Hv2 & Hh2 & _).
  fold st2 in Hv2, Hh2. simpl in Hv2, Hh2. rewrite Hv in Hv2. rewrite Hh in Hh2.
  destruct (subsystem_loop (range (SubsystemLevels cfg)) st2
              (range_NoDup _) Hwf2) as (_ & Hlen & Hset & Hoth & Hnew).
  destruct (subsystem_loop_grows (range (SubsystemLevels cfg)) st2) as (Hg & _).
  eexists. split; [reflexivity|]. split.
  - intros n a Hn. split.
    + eapply grows_levels; [apply Hg|]. by rewrite Hv2.
    + destruct (SubsystemLevels cfg !! n) as [l|] eqn:Hs; simpl.
      * apply Hset. by apply range_elem.
      * destruct (Hoth n) as [_ ->].
        { rewrite range_fst, Hs. by intros [? ?]. }
        apply setAllLoggerLevel_level_of; [done|].
        simpl. rewrite Hv. by exists a.
  - intros n l Hn Hs.
    destruct (Hnew n) as (a & Ha & Hge).
    { apply range_fst. by exists l. }
    { by rewrite Hv2. }
    exists a. split; [done|]. split; [lia|].
    apply Hset. by apply range_elem.
Qed.

Lemma SetLogLevel_sets name level lvl st a :
  wf st → LevelFromString level = inl lvl → levels st !! name = Some a →
  (SetLogLevel name level st).1 = None
  ∧ loggers (SetLogLevel name level st).2 = loggers st
  ∧ levels (SetLogLevel name level st).2 = levels st
  ∧ level_of name (SetLogLevel name level st).2 = Some lvl.
Proof.
  intros Hwf Hlvl Ha. unfold SetLogLevel. rewrite Hlvl.
  case_decide; simpl.
  - destruct (setAllLoggerLevel_registry lvl st) as (-> & -> & _).
    split_and!; try done. apply setAllLoggerLevel_level_of; [done|]. by exists a.
  - rewrite Ha. simpl. split_and!; try done.
    by rewrite (SetLevel_level_of _ _ _ _ a), decide_True.
Qed.

Lemma Enabled_level_of name a l st lvl :
  levels st !! name = Some a → level_of name st = Some lvl →
  Enabled a l st = bool_decide (level_rank lvl ≤ level_rank l).
Proof.
  unfold level_of, Enabled. intros ->. simpl. by intros ->.
Qed.

(** C2.  Get-or-create is idempotent.  After [Logger name], whatever calls
    follow, a second [Logger name] returns the same handle and adds nothing:
    the registry still holds the very logger and the very level cell of the
    first call, both handles filter by that cell, and a level set through
    [SetLogLevel name] afterwards decides what either handle lets through. *)
Theorem Logger_idempotent name st ops h1 st1 h2 st3 :
  wf st → name ≠ "" →
  Logger name st = (h1, st1) →
  Logger name (run_all ops st1) = (h2, st3) →
  h2 = h1
  ∧ st3 = run_all ops st1
  ∧ loggers st3 !! name = Some (sugared h1)
  ∧ levels st3 !! name = Some (lg_level (sugared h1))
  ∧ lg_level (skipLogger h1) = lg_level (sugared h1)
  ∧ level_of name st3 = GetLevel (lg_level (skipLogger h1)) st3
  ∧ ∀ level lvl l,
      LevelFromString level = inl lvl →
      Enabled (lg_level (skipLogger h1)) l (SetLogLevel name level st3).2
      = bool_decide (level_rank lvl ≤ level_rank l)
      ∧ Enabled (lg_level (skipLogger h2)) l (SetLogLevel name level st3).2
        = bool_decide (level_rank lvl ≤ level_rank l).
Proof.
  intros Hwf Hne H1 H2.
  rewrite Logger_named in H1 by done. injection H1 as <- <-.
  destruct (getLogger_registered name st Hwf) as (Hl1 & Hv1 & _).
  set (lg := (getLogger name st).1) in *.
  set (st1 := (getLogger name st).2) in *.
  assert (Hwf1 : wf st1) by by apply getLogger_wf.
  set (st2 := run_all ops st1) in *.
  assert (Hwf2 : wf st2) by by apply run_all_wf.
  assert (Hl2 : loggers st2 !! name = Some lg).
  { eapply grows_loggers; [apply run_all_grows|done]. }
  assert (Hv2 : levels st2 !! name = Some (lg_level lg)).
  { eapply grows_levels; [apply run_all_grows|done]. }
  rewrite Logger_named, (getLogger_hit _ _ _ Hl2) in H2 by done.
  simpl in H2. injection H2 as <- <-. simpl.
  split_and!; try done.
  - unfold level_of. by rewrite Hv2.
  - intros level lvl l Hlvl.
    destruct (SetLogLevel_sets name level lvl st2 _ Hwf2 Hlvl Hv2)
      as (_ & _ & Hv3 & Hlv3).
    rewrite <- Hv3 in Hv2.
    by rewrite (Enabled_level_of name _ l _ lvl Hv2 Hlv3).
Qed.

Lemma core_With_outputs (kvs : list (string * string)) c :
  core_outputs (foldl (fun c kv => core_With c [(kv.1, kv.2)]) c kvs)
  = core_outputs c.
Proof.
  revert c. induction kvs as [|kv kvs IH]; intros c; simpl; [done|].
  by rewrite IH.
Qed.

Lemma subsystem_loop_primaryCore kvs st :
  primaryCore (foldl subsystem_step st kvs) = primaryCore st.
Proof.
  revert st. induction kvs as [|kv kvs IH]; intros st; simpl; [done|].
  rewrite IH. unfold subsystem_step. by destruct (levels st !! kv.1).
Qed.

(** C3, as the code has it.  [SetupLogging cfg] opens the destinations in the
    order stderr (if [cfg.Stderr]), stdout (if [cfg.Stdout]), the file (if
    [cfg.File] is non-empty and resolves), the URL sink (if [cfg.URL] is
    non-empty): it panics exactly when [zap.Open] fails on that list, and
    otherwise installs a primary core writing to what [zap.Open] returned
    for it. *)
Theorem SetupLogging_output_order cfg st :
  (zap_Open (outputPaths cfg) = None →
     ∃ st0, SetupLogging cfg st = Panicked st0)
  ∧ (∀ outputs, zap_Open (outputPaths cfg) = Some outputs →
       ∃ st' core,
         SetupLogging cfg st = Returned tt st'
         ∧ primaryCore st' = Some core
         ∧ core_outputs core = outputs).
Proof.
  destruct (SetupLogging_unfold cfg st) as (st0 & _ & _ & _ & _ & _ & _ & ->).
  split.
  - intros ->. by exists st0.
  - intros outputs ->. cbv zeta. eexists _, _. split; [reflexivity|].
    rewrite subsystem_loop_primaryCore, setAllLoggerLevel_heap. simpl.
    split; [reflexivity|]. by rewrite core_With_outputs.
Qed.

Lemma loggers_have_holders st :
  wf st → ∀ kv, kv ∈ range (loggers st) → is_Some (levels st !! kv.1).
Proof.
  intros Hwf [n lg] Hin%range_elem. simpl.
  destruct (wf_logger _ Hwf _ _ Hin) as [_ ?]. by eexists.
Qed.

(** The loop leaves alone every name that does not match or has no logger. *)
Lemma regex_unmatched rem lvl st :
  wf st → ∀ n,
  MatchString rem n = false ∨ loggers st !! n = None →
  level_of n (set_heap (fill lvl (matched_cells rem st (range (loggers st)))) st)
  = level_of n st.
Proof.
  intros Hwf n Hn. destruct (levels st !! n) as [a|] eqn:Ha.
  - rewrite (level_of_fill _ _ _ _ a) by done.
    rewrite decide_False; [done|].
    intros ([n' lg] & Hin & Hm & Hlv)%elem_of_matched_cells. simpl in *.
    assert (n' = n) as -> by by eapply wf_inj.
    apply range_elem in Hin. destruct Hn; congruence.
  - rewrite level_of_fill_None by done. unfold level_of. by rewrite Ha.
Qed.

(** C4.  [SetLogLevelRegex e l]: when [l] does not parse or [e] does not
    compile, the call returns that error and the state is untouched;
    otherwise it returns nil, the registry maps are as before, every created
    subsystem whose name matches [e] is at the parsed level, and every name
    that does not match (or has no logger) keeps its level. *)
Theorem SetLogLevelRegex_spec e l st :
  wf st →
  (∀ err, LevelFromString l = inr err →
     SetLogLevelRegex e l st = Returned (Some err) st)
  ∧ (∀ lvl err, LevelFromString l = inl lvl → regexp_Compile e = inr err →
       SetLogLevelRegex e l st = Returned (Some err) st)
  ∧ (∀ lvl rem, LevelFromString l = inl lvl → regexp_Compile e = inl rem →
       ∃ st',
         SetLogLevelRegex e l st = Returned None st'
         ∧ loggers st' = loggers st ∧ levels st' = levels st
         ∧ (∀ n, is_Some (loggers st !! n) → MatchString rem n = true →
              level_of n st' = Some lvl)
         ∧ (∀ n, MatchString rem n = false → level_of n st' = level_of n st)
         ∧ (∀ n, loggers st !! n = None → level_of n st' = level_of n st)).
Proof.
  intros Hwf. unfold SetLogLevelRegex. split_and!.
  - by intros err ->.
  - by intros lvl err -> ->.
  - intros lvl rem -> ->.
    rewrite (regex_loop rem lvl _ st (loggers_have_holders st Hwf)).
    eexists. split; [reflexivity|]. split; [done|]. split; [done|].
    pose proof (regex_unmatched rem lvl st Hwf) as Hother.
    split_and!.
    + intros n [lg Hlg] Hm.
      destruct (wf_logger _ Hwf _ _ Hlg) as [_ Hlv].
      rewrite (level_of_fill _ _ _ _ _ Hwf Hlv).
      rewrite decide_True; [done|].
      apply elem_of_matched_cells. exists (n, lg). split; [|done].
      by apply range_elem.
    + intros n Hn. apply Hother. by left.
    + intros n Hn. apply Hother. by right.
Qed.

(** C5.  [SetLogLevel name level] for a name other than ["*"] and a level
    that parses: without a holder for [name] the call returns
    [ErrNoSuchLogger] and the state is untouched (no entry appears, no level
    moves); with a holder it returns nil, stores the parsed level into that
    holder's cell and nothing else changes: the maps are as before and every
    other name keeps its level. *)
Theorem SetLogLevel_exact name level lvl st :
  wf st → name ≠ "*" → LevelFromString level = inl lvl →
  (levels st !! name = None →
     SetLogLevel name level st = (Some ErrNoSuchLogger, st))
  ∧ (∀ a, levels st !! name = Some a →
       ∃ st',
         SetLogLevel name level st = (None, st')
         ∧ st' = set_heap (fun h => <[a := lvl]> h) st
         ∧ loggers st' = loggers st ∧ levels st' = levels st
         ∧ level_of name st' = Some lvl
         ∧ ∀ m, m ≠ name → level_of m st' = level_of m st).
Proof.
  intros Hwf Hne Hlvl. unfold SetLogLevel. rewrite Hlvl.
  rewrite decide_False by done. split.
  - by intros ->.
  - intros a Ha. rewrite Ha. eexists. split; [reflexivity|].
    split; [done|]. split; [done|]. split; [done|]. split.
    + by rewrite (SetLevel_level_of _ _ _ _ a), decide_True.
    + intros m Hm. destruct (levels st !! m) as [b|] eqn:Hb.
      * rewrite (SetLevel_level_of _ _ _ _ b) by done.
        rewrite decide_False; [done|]. intros ->. apply Hm. by eapply wf_inj.
      * unfold level_of. simpl. by rewrite Hb.
Qed.

(** Only [SetupLogging] writes the process default. *)
Lemma SetupLogging_defaultLevel cfg st :
  defaultLevel (state_after (SetupLogging cfg st)) = Level cfg.
Proof.
  destruct (SetupLogging_unfold cfg st) as (st0 & _ & _ & _ & Hd & _ & _ & ->).
  destruct (zap_Open _); simpl; [|done].
  destruct (subsystem_loop_grows (range (SubsystemLevels cfg))
    (setAllLoggerLevel (Level cfg) (setPrimaryCore
       (Some (foldl (fun c kv => core_With c [(kv.1, kv.2)])
                (newCore (Format cfg) l LevelDebug) (range (Labels cfg)))) st0)))
    as (_ & _ & ->).
  by rewrite setAllLoggerLevel_heap.
Qed.

Lemma run_defaultLevel op st :
  (∀ cfg, op ≠ OpSetupLogging cfg) → defaultLevel (run op st) = defaultLevel st.
Proof.
  intros Hop. destruct op as [name|cfg|name level|e l|core| |h l msg]; simpl.
  - destruct (decide (name = "")) as [->|Hne].
    + rewrite Logger_empty. simpl.
      destruct (getLogger_frame "undefined"
        (emit (getLogger "setup-logger" st).1 LevelError "Missing name parameter"
           (getLogger "setup-logger" st).2)) as [-> _].
      destruct (emit_registry (getLogger "setup-logger" st).1 LevelError
        "Missing name parameter" (getLogger "setup-logger" st).2) as (_ & _ & _ & ->).
      by destruct (getLogger_frame "setup-logger" st) as [-> _].
    + rewrite Logger_named by done. simpl.
      by destruct (getLogger_frame name st) as [-> _].
  - by destruct (Hop cfg).
  - unfold SetLogLevel. destruct (LevelFromString level); [|done].
    case_decide; simpl.
    + by destruct (setAllLoggerLevel_registry l st) as (_ & _ & _ & ->).
    + by destruct (levels st !! name).
  - destruct (SetLogLevelRegex_state e l st) as [->|(lvl & rem & ->)]; [done|].
    by destruct (regex_loop_registry rem lvl (range (loggers st)) (Returned tt st))
      as (_ & _ & _ & ->).
  - done.
  - done.
  - by destruct (emit_registry (skipLogger h) l msg st) as (_ & _ & _ & ->).
Qed.

(** C6, as the code has it.  [SetLogLevel "*" level] with a level that
    parses returns nil and leaves every name that has a level holder at the
    parsed level; it does not touch the process default.  A subsystem that
    [Logger] creates afterwards starts at the process default when its name
    has no holder yet; when [SetupLogging] had pre-created its holder, the
    wildcard reached that holder and the new logger filters at the parsed
    level. *)
Theorem SetLogLevel_wildcard level lvl st :
  wf st → LevelFromString level = inl lvl →
  ∃ st1,
    SetLogLevel "*" level st = (None, st1)
    ∧ loggers st1 = loggers st ∧ levels st1 = levels st
    ∧ defaultLevel st1 = defaultLevel st
    ∧ (∀ n, is_Some (levels st !! n) → level_of n st1 = Some lvl)
    ∧ (∀ name h st2, name ≠ "" → Logger name st1 = (h, st2) →
         loggers st1 !! name = None →
         level_of name st2 = GetLevel (lg_level (skipLogger h)) st2
         ∧ (levels st1 !! name = None →
              level_of name st2 = Some (defaultLevel st))
         ∧ (is_Some (levels st1 !! name) → level_of name st2 = Some lvl)).
Proof.
  intros Hwf Hlvl. unfold SetLogLevel. rewrite Hlvl. simpl.
  eexists. split; [reflexivity|].
  destruct (setAllLoggerLevel_registry lvl st) as (Hl & Hv & _ & Hd).
  assert (Hwf1 := setAllLoggerLevel_wf lvl st Hwf).
  split_and!; try done.
  - intros n Hn. by apply setAllLoggerLevel_level_of.
  - intros name h st2 Hne HL Hnew.
    rewrite Logger_named in HL by done. injection HL as <- <-. simpl.
    destruct (getLogger_registered name _ Hwf1) as (_ & Hv2 & _).
    split_and!.
    + unfold level_of. by rewrite Hv2.
    + intros Hnone. rewrite getLogger_default by done. by rewrite Hd.
    + intros Hsome. rewrite getLogger_level_of by done.
      apply setAllLoggerLevel_level_of; [done|]. by rewrite <- Hv.
Qed.

(** C7.  [Logger ""] returns a handle for the subsystem ["undefined"], the
    one registered under that name; on the way it obtains the bootstrap
    logger ["setup-logger"] and calls [Error "Missing name parameter"] on it,
    which writes the record whenever that logger's level lets errors
    through.  Asking again, with [""] or with ["undefined"], gives the same
    handle and registers nothing new. *)
Theorem Logger_empty_name st h st' :
  wf st → Logger "" st = (h, st') →
  system h = "undefined"
  ∧ lg_name (sugared h) = "undefined"
  ∧ loggers st' !! "undefined" = Some (sugared h)
  ∧ is_Some (loggers st' !! "setup-logger")
  ∧ (∃ lv, level_of "setup-logger" st' = Some lv
           ∧ written st' = written st ++
               if bool_decide (level_rank lv ≤ level_rank LevelError)
               then [{| e_logger := "setup-logger"; e_level := LevelError;
                        e_message := "Missing name parameter" |}]
               else [])
  ∧ Logger "undefined" st' = (h, st')
  ∧ (Logger "" st').1 = h
  ∧ loggers (Logger "" st').2 = loggers st'
  ∧ levels (Logger "" st').2 = levels st'.
Proof.
  intros Hwf HL. rewrite Logger_empty in HL. cbv zeta in HL.
  injection HL as <- <-. simpl.
  destruct (getLogger_registered "setup-logger" st Hwf) as (Hl1 & Hv1 & Hn1).
  set (lg0 := (getLogger "setup-logger" st).1) in *.
  set (st1 := (getLogger "setup-logger" st).2) in *.
  assert (Hwf1 : wf st1) by by apply getLogger_wf.
  set (st2 := emit lg0 LevelError "Missing name parameter" st1).
  assert (Hwf2 : wf st2) by by apply emit_wf.
  destruct (emit_registry lg0 LevelError "Missing name parameter" st1)
    as (Hl2 & Hv2 & Hh2 & _). fold st2 in Hl2, Hv2, Hh2.
  destruct (getLogger_registered "undefined" st2 Hwf2) as (Hl3 & Hv3 & Hn3).
  set (lg := (getLogger "undefined" st2).1) in *.
  set (st3 := (getLogger "undefined" st2).2) in *.
  assert (Hwf3 : wf st3) by by apply getLogger_wf.
  assert (Hl3' : loggers st3 !! "setup-logger" = Some lg0).
  { eapply grows_loggers; [apply getLogger_grows|]. by rewrite Hl2. }
  split_and!; try done.
  - destruct (lookup_lt_is_Some_2 _ _ (wf_alloc _ Hwf1 _ _ Hv1)) as [lv Hlv].
    exists lv.
    assert (Hlv1 : level_of "setup-logger" st1 = Some lv).
    { unfold level_of. by rewrite Hv1. }
    split.
    + unfold st3. rewrite getLogger_level_of; [|done|by rewrite Hv2].
      unfold st2. by rewrite emit_level_of.
    + destruct (getLogger_frame "undefined" st2) as [_ Hw3].
      fold st3 in Hw3. rewrite Hw3. unfold st2, emit. rewrite (Enabled_level_of _ _ _ _ _ Hv1 Hlv1).
      destruct (getLogger_frame "setup-logger" st) as [_ Hw]. fold st1 in Hw.
      destruct (bool_decide _); simpl written; by rewrite Hw, ?Hn1, ?app_nil_r.
  - rewrite Logger_named by done. by rewrite (getLogger_hit _ _ _ Hl3).
  - rewrite Logger_empty. cbv zeta. cbn [fst snd].
    rewrite (getLogger_hit _ _ _ Hl3'). simpl.
    rewrite (getLogger_hit "undefined" lg); [done|].
    destruct (emit_registry lg0 LevelError "Missing name parameter" st3)
      as (-> & _). done.
  - rewrite Logger_empty. cbv zeta. cbn [fst snd].
    rewrite (getLogger_hit _ _ _ Hl3'). simpl.
    destruct (emit_registry lg0 LevelError "Missing name parameter" st3)
      as (Hl4 & _).
    rewrite (getLogger_hit "undefined" lg); [done|by rewrite Hl4].
  - rewrite Logger_empty. cbv zeta. cbn [fst snd].
    rewrite (getLogger_hit _ _ _ Hl3'). simpl.
    destruct (emit_registry lg0 LevelError "Missing name parameter" st3)
      as (Hl4 & Hv4 & _).
    rewrite (getLogger_hit "undefined" lg); [done|by rewrite Hl4].
Qed.

Lemma foldl_append_keys {A} (kvs : list (string * A)) (subs : list string) :
  foldl (fun subs kv => subs ++ [kv.1]) subs kvs = subs ++ kvs.*1.
Proof.
  revert subs. induction kvs as [|kv kvs IH]; intros subs; simpl.
  - by rewrite app_nil_r.
  - by rewrite IH, <- app_assoc.
Qed.

Lemma GetSubsystems_keys st : GetSubsystems st = (range (loggers st)).*1.
Proof. unfold GetSubsystems. by rewrite foldl_append_keys. Qed.

Lemma GetSubsystems_elem st n :
  n ∈ GetSubsystems st ↔ is_Some (loggers st !! n).
Proof. rewrite GetSubsystems_keys. apply range_fst. Qed.

(** C8.  [GetSubsystems] lists the names of the created loggers: each key of
    [loggers] once, nothing else, in the order the map happens to be
    visited. *)
Theorem GetSubsystems_names st :
  NoDup (GetSubsystems st)
  ∧ (∀ n, n ∈ GetSubsystems st ↔ n ∈ dom (loggers st))
  ∧ GetSubsystems st ≡ₚ (map_to_list (loggers st)).*1.
Proof.
  split_and!.
  - rewrite GetSubsystems_keys. apply range_NoDup.
  - intros n. rewrite GetSubsystems_elem. by rewrite elem_of_dom.
  - rewrite GetSubsystems_keys. by rewrite range_perm.
Qed.

(** C9.  No call destroys an entry: whatever the call, every name registered
    before it is registered after it, and each logger and each level holder
    found under a name before the call is the one found there after it. *)
Theorem entries_never_destroyed op st :
  dom (loggers st) ⊆ dom (loggers (run op st))
  ∧ dom (levels st) ⊆ dom (levels (run op st))
  ∧ (∀ n lg, loggers st !! n = Some lg → loggers (run op st) !! n = Some lg)
  ∧ (∀ n a, levels st !! n = Some a → levels (run op st) !! n = Some a).
Proof.
  pose proof (run_grows op st) as Hg. split_and!.
  - apply subseteq_dom, Hg.
  - apply subseteq_dom, Hg.
  - intros n lg. by apply grows_loggers.
  - intros n a. by apply grows_levels.
Qed.

(** What a returning [SetupLogging] leaves: the loggers as they were, the
    invariant, and each override of [cfg.SubsystemLevels] in force. *)
Lemma SetupLogging_applied cfg st outputs :
  wf st → zap_Open (outputPaths cfg) = Some outputs →
  ∃ st',
    SetupLogging cfg st = Returned tt st'
    ∧ wf st' ∧ loggers st' = loggers st
    ∧ ∀ n l, SubsystemLevels cfg !! n = Some l → level_of n st' = Some l.
Proof.
  intros Hwf Hopen.
  pose proof (SetupLogging_wf cfg st Hwf) as Hwf'.
  destruct (SetupLogging_unfold cfg st) as (st0 & Hl & Hv & Hh & _ & _ & _ & HS).
  rewrite HS in Hwf' |- *. rewrite Hopen in Hwf' |- *. cbv zeta in Hwf' |- *.
  simpl in Hwf'.
  set (core := foldl _ (newCore _ _ _) _) in *.
  set (st2 := setAllLoggerLevel (Level cfg) (setPrimaryCore (Some core) st0)) in *.
  assert (Hwf2 : wf st2).
  { apply setAllLoggerLevel_wf. revert Hwf. apply wf_same_registry; try done.
    simpl. by rewrite Hh. }
  destruct (subsystem_loop (range (SubsystemLevels cfg)) st2
              (range_NoDup _) Hwf2) as (_ & _ & Hset & _).
  destruct (subsystem_loop_grows (range (SubsystemLevels cfg)) st2) as (_ & Hl2 & _).
  eexists. split; [reflexivity|]. split; [done|]. split.
  - rewrite Hl2. unfold st2. by rewrite setAllLoggerLevel_heap.
  - intros n l Hs. apply Hset. by apply range_elem.
Qed.

(** C10.  A name that [SetupLogging] pre-configures through
    [cfg.SubsystemLevels] and that has no logger yet gets a level holder but
    no logger.  [SetLogLevel] finds it, by its exact name and by ["*"], and
    sets its level; [GetSubsystems] does not list it, and [SetLogLevelRegex]
    leaves its level alone whatever the pattern. *)
Theorem precreated_holder_visibility cfg st n l0 outputs :
  wf st →
  loggers st !! n = None →
  SubsystemLevels cfg !! n = Some l0 →
  zap_Open (outputPaths cfg) = Some outputs →
  ∃ st1,
    SetupLogging cfg st = Returned tt st1
    ∧ loggers st1 !! n = None
    ∧ is_Some (levels st1 !! n)
    ∧ level_of n st1 = Some l0
    ∧ (n ∉ GetSubsystems st1)
    ∧ (∀ level lvl, LevelFromString level = inl lvl →
         (SetLogLevel n level st1).1 = None
         ∧ level_of n (SetLogLevel n level st1).2 = Some lvl
         ∧ (SetLogLevel "*" level st1).1 = None
         ∧ level_of n (SetLogLevel "*" level st1).2 = Some lvl)
    ∧ (∀ e l, ∃ r st2,
         SetLogLevelRegex e l st1 = Returned r st2
         ∧ level_of n st2 = Some l0).
Proof.
  intros Hwf Hnl Hs Hopen.
  destruct (SetupLogging_applied cfg st outputs Hwf Hopen)
    as (st1 & HS & Hwf1 & Hl1 & Hset).
  exists st1. split; [done|].
  assert (Hn1 : loggers st1 !! n = None) by by rewrite Hl1.
  pose proof (Hset n l0 Hs) as Hlv.
  assert (Hhold : is_Some (levels st1 !! n)).
  { unfold level_of in Hlv. destruct (levels st1 !! n); [by eexists|done]. }
  split_and!; try done.
  - rewrite GetSubsystems_elem, Hn1. by intros [? ?].
  - intros level lvl Hlvl. destruct Hhold as [a Ha].
    destruct (SetLogLevel_sets n level lvl st1 a Hwf1 Hlvl Ha) as (-> & _ & _ & ->).
    split; [done|]. split; [done|].
    unfold SetLogLevel. rewrite Hlvl. simpl. split; [done|].
    apply setAllLoggerLevel_level_of; [done|]. by exists a.
  - intros e l. unfold SetLogLevelRegex.
    destruct (LevelFromString l) as [lvl|err]; [|by eexists _, _].
    destruct (regexp_Compile e) as [rem|err]; [|by eexists _, _].
    rewrite (regex_loop rem lvl _ st1 (loggers_have_holders st1 Hwf1)).
    eexists _, _. split; [reflexivity|].
    rewrite regex_unmatched; [done|done|by right].
Qed.

(** ** More on the registry *)

(** X1.  In every state the package reaches, each logger is registered under
    its own name and filters by the holder registered under that name, no
    two names share a level cell, and every name with a holder or a logger
    has a current level. *)
Theorem reachable_registry_invariant ops :
  (∀ n lg, loggers (run_all ops initial) !! n = Some lg →
     lg_name lg = n ∧ levels (run_all ops initial) !! n = Some (lg_level lg))
  ∧ (∀ n1 n2 a, levels (run_all ops initial) !! n1 = Some a →
       levels (run_all ops initial) !! n2 = Some a → n1 = n2)
  ∧ (∀ n, is_Some (levels (run_all ops initial) !! n) →
       is_Some (level_of n (run_all ops initial)))
  ∧ (∀ n, is_Some (loggers (run_all ops initial) !! n) →
       is_Some (level_of n (run_all ops initial))).
Proof.
  pose proof (run_all_wf ops initial wf_initial) as Hwf.
  set (st := run_all ops initial) in *.
  assert (Hlv : ∀ n, is_Some (levels st !! n) → is_Some (level_of n st)).
  { intros n [a Ha]. unfold level_of, GetLevel. rewrite Ha. simpl.
    apply lookup_lt_is_Some_2. by eapply wf_alloc. }
  split_and!.
  - intros n lg. by apply wf_logger.
  - intros n1 n2 a. by apply wf_inj.
  - done.
  - intros n [lg Hlg]. apply Hlv.
    destruct (wf_logger _ Hwf _ _ Hlg) as [_ ?]. by eexists.
Qed.

Lemma regex_loop_cells rem lvl kvs o :
  ∃ cells,
    state_after (foldl (regex_step rem lvl) o kvs)
    = set_heap (fill lvl cells) (state_after o).
Proof.
  revert o. induction kvs as [|kv kvs IH]; intros o; simpl.
  - exists []. by destruct (state_after o).
  - destruct (IH (regex_step rem lvl o kv)) as (cells & ->).
    destruct o as [[] st|st]; simpl.
    + destruct (MatchString rem kv.1); [|by exists cells].
      destruct (levels st !! kv.1) as [a|]; simpl; [|by exists cells].
      by exists (a :: cells).
    + by exists cells.
Qed.

(** X2.  On a well-formed registry [SetLogLevelRegex] always returns: the
    nil holder that indexing [levels] at a missing name would give is never
    dereferenced, because every logger has its holder.  The error is the
    parse error of the level if there is one, else the compile error of the
    pattern if there is one, else nil. *)
Theorem SetLogLevelRegex_returns e l st :
  wf st →
  ∃ st',
    SetLogLevelRegex e l st
    = Returned
        match LevelFromString l with
        | inr err => Some err
        | inl _ =>
            match regexp_Compile e with inr err => Some err | inl _ => None end
        end st'.
Proof.
  intros Hwf. unfold SetLogLevelRegex.
  destruct (LevelFromString l) as [lvl|err]; [|by eexists].
  destruct (regexp_Compile e) as [rem|err]; [|by eexists].
  rewrite (regex_loop rem lvl _ st (loggers_have_holders st Hwf)). by eexists.
Qed.

Lemma fill_frame lvl cells st :
  only_cells_differ st (set_heap (fill lvl cells) st).
Proof. unfold only_cells_differ. simpl. by rewrite fill_length. Qed.

Lemma level_setters_frame_aux name level st :
  only_cells_differ st (SetLogLevel name level st).2.
Proof.
  unfold SetLogLevel.
  destruct (LevelFromString level) as [lvl|]; [|by repeat split].
  case_decide; simpl.
  - rewrite setAllLoggerLevel_heap. apply fill_frame.
  - destruct (levels st !! name) as [a|]; simpl; [|by repeat split].
    apply (fill_frame lvl [a]).
Qed.

(** X9.  The level setters write level cells and nothing else:
    [SetLogLevel] and [SetLogLevelRegex] leave both maps, the number of
    cells, the default level, the cores and what was written and printed as
    they were, whatever their arguments and whether they fail or not. *)
Theorem level_setters_frame name level e l st :
  only_cells_differ st (SetLogLevel name level st).2
  ∧ only_cells_differ st (state_after (SetLogLevelRegex e l st)).
Proof.
  split.
  - apply level_setters_frame_aux.
  - destruct (SetLogLevelRegex_state e l st) as [->|(lvl & rem & ->)];
      [by repeat split|].
    destruct (regex_loop_cells rem lvl (range (loggers st)) (Returned tt st))
      as (cells & ->).
    apply fill_frame.
Qed.

Lemma run_all_defaultLevel ops st :
  (∀ cfg, OpSetupLogging cfg ∉ ops) →
  defaultLevel (run_all ops st) = defaultLevel st.
Proof.
  revert st. induction ops as [|op ops IH]; intros st Hno; simpl; [done|].
  rewrite IH.
  - apply run_defaultLevel. intros cfg ->. apply (Hno cfg). by left.
  - intros cfg ?. apply (Hno cfg). by right.
Qed.

(** X10.  Only [SetupLogging] moves the process default: a sequence of calls
    without it leaves [defaultLevel] as it was, and a [SetupLogging cfg],
    even one that panics, leaves it at [cfg.Level] for all calls that follow
    up to the next [SetupLogging]. *)
Theorem defaultLevel_only_SetupLogging ops cfg st :
  (∀ cfg', OpSetupLogging cfg' ∉ ops) →
  defaultLevel (run_all ops st) = defaultLevel st
  ∧ defaultLevel (run_all (OpSetupLogging cfg :: ops) st) = Level cfg.
Proof.
  intros Hno. split; [by apply run_all_defaultLevel|].
  simpl. rewrite run_all_defaultLevel by done.
  apply SetupLogging_defaultLevel.
Qed.


(** The state [SetupLogging] is in when it calls [zap.Open]. *)
Lemma SetupLogging_before_Open cfg st :
  ∃ st0,
    loggers st0 = loggers st ∧ levels st0 = levels st ∧ heap st0 = heap st
    ∧ primaryCore st0 = primaryCore st ∧ loggerCore st0 = loggerCore st
    ∧ written st0 = written st
    ∧ primaryFormat st0 = Format cfg ∧ defaultLevel st0 = Level cfg
    ∧ stderr st0 = stderr st ++
        (if 0 <? String.length (File cfg) then
           match normalizePath (File cfg) with
           | inr _ =>
               [FailedToResolveLogPath (File cfg)
                  ((if Stderr cfg then ["stderr"] else []) ++
                   (if Stdout cfg then ["stdout"] else []))]
           | inl _ => []
           end
         else [])
    ∧ SetupLogging cfg st =
        match zap_Open (outputPaths cfg) with
        | None => Panicked st0
        | Some outputs =>
            Returned tt
              (foldl subsystem_step
                 (setAllLoggerLevel (Level cfg)
                    (setPrimaryCore
                       (Some (foldl (fun c kv => core_With c [(kv.1, kv.2)])
                                (newCore (Format cfg) outputs LevelDebug)
                                (range (Labels cfg)))) st0))
                 (range (SubsystemLevels cfg)))
        end.
Proof.
  unfold SetupLogging, outputPaths.
  destruct (Stderr cfg), (Stdout cfg), (0 <? String.length (File cfg));
    try destruct (normalizePath (File cfg));
    destruct (0 <? String.length (URL cfg)); simpl;
    (eexists; split_and!; [..|reflexivity]; simpl; rewrite ?app_nil_r;
     reflexivity).
Qed.

(** X3.  When [zap.Open] fails, [SetupLogging cfg] panics with the registry,
    the cells and the cores as they were, but with the format and the
    default level of [cfg] already stored: if the panic is recovered, a
    subsystem created afterwards starts at [cfg.Level]. *)
Theorem SetupLogging_failure cfg st :
  wf st →
  zap_Open (outputPaths cfg) = None →
  ∃ st0,
    SetupLogging cfg st = Panicked st0
    ∧ loggers st0 = loggers st ∧ levels st0 = levels st ∧ heap st0 = heap st
    ∧ primaryCore st0 = primaryCore st ∧ loggerCore st0 = loggerCore st
    ∧ primaryFormat st0 = Format cfg ∧ defaultLevel st0 = Level cfg
    ∧ ∀ name, name ≠ "" → levels st !! name = None →
        level_of name (Logger name st0).2 = Some (Level cfg).
Proof.
  intros Hwf Hopen.
  destruct (SetupLogging_before_Open cfg st)
    as (st0 & Hl & Hv & Hh & Hp & Hc & _ & Hf & Hd & _ & ->).
  rewrite Hopen. exists st0. split_and!; try done.
  intros name Hne Hnone. rewrite Logger_named by done. simpl.
  rewrite getLogger_default; [by rewrite Hd| |by rewrite Hv].
  revert Hwf. apply wf_same_registry; try done. by rewrite Hh.
Qed.


(** A returning [SetupLogging], with all it leaves behind. *)
Lemma SetupLogging_reset_then_apply_aux cfg st outputs :
  wf st →
  zap_Open (outputPaths cfg) = Some outputs →
  ∃ st',
    SetupLogging cfg st = Returned tt st'
    ∧ wf st' ∧ loggers st' = loggers st ∧ defaultLevel st' = Level cfg
    ∧ (∀ n a, levels st !! n = Some a →
         levels st' !! n = Some a
         ∧ level_of n st' = Some (default (Level cfg) (SubsystemLevels cfg !! n)))
    ∧ (∀ n, levels st !! n = None → SubsystemLevels cfg !! n = None →
         levels st' !! n = None)
    ∧ (∀ n l, levels st !! n = None → SubsystemLevels cfg !! n = Some l →
         ∃ a, levels st' !! n = Some a ∧ level_of n st' = Some l).
Proof.
  intros Hwf Hopen.
  destruct (SetupLogging_unfold cfg st) as (st0 & Hl & Hv & Hh & Hd & _ & _ & ->).
  rewrite Hopen. cbv zeta.
  set (core := foldl _ (newCore _ _ _) _).
  set (st1 := setPrimaryCore (Some core) st0).
  assert (Hwf1 : wf st1).
  { revert Hwf. apply wf_same_registry; try done. simpl. by rewrite Hh. }
  set (st2 := setAllLoggerLevel (Level cfg) st1).
  assert (Hwf2 : wf st2) by by apply setAllLoggerLevel_wf.
  destruct (setAllLoggerLevel_registry (Level cfg) st1) as (Hl2 & Hv2 & _ & Hd2).
  fold st2 in Hl2, Hv2, Hd2. simpl in Hl2, Hv2, Hd2.
  rewrite Hl in Hl2. rewrite Hv in Hv2. rewrite Hd in Hd2.
  destruct (subsystem_loop (range (SubsystemLevels cfg)) st2
              (range_NoDup _) Hwf2) as (Hwf3 & _ & Hset & Hoth & Hnew).
  destruct (subsystem_loop_grows (range (SubsystemLevels cfg)) st2)
    as (Hg & Hl3 & Hd3).
  eexists. split; [reflexivity|].
  split; [done|]. split; [by rewrite Hl3|]. split; [by rewrite Hd3|].
  split_and!.
  - intros n a Hn. split.
    + eapply grows_levels; [apply Hg|]. by rewrite Hv2.
    + destruct (SubsystemLevels cfg !! n) as [l|] eqn:Hs; simpl.
      * apply Hset. by apply range_elem.
      * destruct (Hoth n) as [_ ->].
        { rewrite range_fst, Hs. by intros [? ?]. }
        apply setAllLoggerLevel_level_of; [done|].
        simpl. rewrite Hv. by exists a.
  - intros n Hn Hs. destruct (Hoth n) as [-> _].
    + rewrite range_fst, Hs. by intros [? ?].
    + by rewrite Hv2.
  - intros n l Hn Hs.
    destruct (Hnew n) as (a & Ha & _).
    { apply range_fst. by exists l. }
    { by rewrite Hv2. }
    exists a. split; [done|]. apply Hset. by apply range_elem.
Qed.

(** What a returning [SetupLogging] leaves, name by name. *)
Lemma SetupLogging_levels cfg st st' :
  wf st → SetupLogging cfg st = Returned tt st' →
  wf st' ∧ loggers st' = loggers st ∧ defaultLevel st' = Level cfg
  ∧ (∀ n a, levels st !! n = Some a → levels st' !! n = Some a)
  ∧ (∀ n, levels st !! n = None → SubsystemLevels cfg !! n = None →
       levels st' !! n = None)
  ∧ (∀ n l, SubsystemLevels cfg !! n = Some l → is_Some (levels st' !! n))
  ∧ (∀ n, is_Some (levels st' !! n) →
       level_of n st' = Some (default (Level cfg) (SubsystemLevels cfg !! n))).
Proof.
  intros Hwf HS.
  destruct (zap_Open (outputPaths cfg)) as [outputs|] eqn:Hopen.
  2:{ destruct (SetupLogging_before_Open cfg st)
        as (st0 & _ & _ & _ & _ & _ & _ & _ & _ & _ & HS').
      rewrite HS', Hopen in HS. discriminate. }
  destruct (SetupLogging_reset_then_apply_aux cfg st outputs Hwf Hopen)
    as (st'' & HS' & Hwf' & Hl & Hd & Hold & Hnone & Hnew).
  rewrite HS in HS'. injection HS' as <-.
  split_and!; try done.
  - intros n a Hn. by apply Hold.
  - intros n l Hs. destruct (levels st !! n) as [a|] eqn:Hn.
    + exists a. by apply (Hold n a).
    + destruct (Hnew n l Hn Hs) as (a & Ha & _). by exists a.
  - intros n [a' Ha']. destruct (levels st !! n) as [a|] eqn:Hn.
    + by apply (Hold n a).
    + destruct (SubsystemLevels cfg !! n) as [l|] eqn:Hs.
      * destruct (Hnew n l Hn Hs) as (a & _ & Hlv). done.
      * rewrite (Hnone n Hn Hs) in Ha'. discriminate.
Qed.


(** X6.  After a [SetupLogging cfg] that returned, [Logger name] gives a
    handle that filters at the override of [name] in [cfg.SubsystemLevels]
    if there is one and at [cfg.Level] otherwise, whether the subsystem
    existed before the reconfiguration, was only pre-configured by it, or is
    new. *)
Theorem Logger_after_SetupLogging cfg st st1 name h st2 :
  wf st → SetupLogging cfg st = Returned tt st1 →
  name ≠ "" → Logger name st1 = (h, st2) →
  level_of name st2 = Some (default (Level cfg) (SubsystemLevels cfg !! name))
  ∧ GetLevel (lg_level (skipLogger h)) st2
    = Some (default (Level cfg) (SubsystemLevels cfg !! name))
  ∧ GetLevel (lg_level (sugared h)) st2
    = Some (default (Level cfg) (SubsystemLevels cfg !! name)).
Proof.
  intros Hwf HS Hne HL.
  destruct (SetupLogging_levels cfg st st1 Hwf HS)
    as (Hwf1 & _ & Hd1 & _ & _ & Hsub1 & Hlv1).
  rewrite Logger_named in HL by done. injection HL as <- <-. simpl.
  destruct (getLogger_registered name st1 Hwf1) as (_ & Hv2 & _).
  assert (Hlv : level_of name (getLogger name st1).2
                = Some (default (Level cfg) (SubsystemLevels cfg !! name))).
  { destruct (levels st1 !! name) as [a|] eqn:Hn.
    - rewrite getLogger_level_of; [|done|by exists a]. apply Hlv1. by exists a.
    - rewrite getLogger_default by done. rewrite Hd1.
      destruct (SubsystemLevels cfg !! name) as [l|] eqn:Hs; [|done].
      destruct (Hsub1 name l Hs) as [a Ha]. congruence. }
  split; [done|]. unfold level_of in Hlv. rewrite Hv2 in Hlv. done.
Qed.

Lemma getLogger_loggers name st :
  loggers (getLogger name st).2
  = match loggers st !! name with
    | Some _ => loggers st
    | None => <[name := (getLogger name st).1]> (loggers st)
    end.
Proof.
  destruct (loggers st !! name) as [lg|] eqn:Hl.
  - by rewrite (getLogger_hit _ _ _ Hl).
  - rewrite (getLogger_miss _ _ Hl). by destruct (levels st !! name).
Qed.

(** X7.  [Logger name], for a non-empty name, adds exactly [name] to what
    [GetSubsystems] lists when it was not listed, and nothing when it was;
    every other name stays listed. *)
Theorem GetSubsystems_after_Logger name st :
  name ≠ "" →
  GetSubsystems (Logger name st).2
  ≡ₚ if decide (name ∈ GetSubsystems st) then GetSubsystems st
     else name :: GetSubsystems st.
Proof.
  intros Hne. rewrite Logger_named by done. simpl.
  apply NoDup_Permutation.
  - rewrite GetSubsystems_keys. apply range_NoDup.
  - case_decide as Hin.
    + rewrite GetSubsystems_keys. apply range_NoDup.
    + apply NoDup_cons. split; [done|].
      rewrite GetSubsystems_keys. apply range_NoDup.
  - intros n. rewrite GetSubsystems_elem, getLogger_loggers.
    case_decide as Hin; rewrite GetSubsystems_elem in Hin.
    + destruct Hin as [lg Hlg]. rewrite Hlg. by rewrite GetSubsystems_elem.
    + destruct (loggers st !! name) as [lg|] eqn:Hlg; [by destruct Hin|].
      rewrite elem_of_cons, GetSubsystems_elem.
      destruct (decide (n = name)) as [->|Hnn].
      * rewrite lookup_insert_eq. split; [by left|by eexists].
      * rewrite lookup_insert_ne by done. split; [by right|].
        by intros [?|?].
Qed.


(** X18.  Obtaining a logger moves nobody's level: after [Logger name], for
    any [name], the empty one included, every name that had a level holder
    has the holder and the level it had. *)
Theorem Logger_keeps_levels name st n a :
  wf st → levels st !! n = Some a →
  levels (Logger name st).2 !! n = Some a
  ∧ level_of n (Logger name st).2 = level_of n st.
Proof.
  intros Hwf Hn. split.
  - eapply grows_levels; [apply Logger_grows|done].
  - destruct (decide (name = "")) as [->|Hne].
    + rewrite Logger_empty. cbv zeta. cbn [snd].
      set (st1 := (getLogger "setup-logger" st).2).
      set (lg0 := (getLogger "setup-logger" st).1).
      assert (Hwf1 : wf st1) by by apply getLogger_wf.
      assert (Hn1 : levels st1 !! n = Some a).
      { eapply grows_levels; [apply getLogger_grows|done]. }
      destruct (emit_registry lg0 LevelError "Missing name parameter" st1)
        as (_ & Hv2 & _).
      rewrite getLogger_level_of;
        [|by apply emit_wf|rewrite Hv2; by exists a].
      rewrite emit_level_of. unfold st1.
      apply getLogger_level_of; [done|by exists a].
    + rewrite Logger_named by done. cbn [snd].
      apply getLogger_level_of; [done|by exists a].
Qed.

(** ** Splitting *)

Lemma Split_nonempty s sep : Split s sep ≠ [].
Proof.
  destruct s as [|c s]; simpl; [done|].
  destruct (Ascii.eqb c sep); [done|]. by destruct (Split s sep).
Qed.

Lemma Split_Join s sep : Join (Split s sep) sep = s.
Proof.
  induction s as [|c s IH]; simpl; [done|].
  destruct (Ascii.eqb c sep) eqn:Hc.
  - apply Ascii.eqb_eq in Hc as ->.
    pose proof (Split_nonempty s sep) as Hne.
    destruct (Split s sep) as [|w ws] eqn:Hs; [done|].
    change (Join (EmptyString :: w :: ws) sep)
      with (String sep (Join (w :: ws) sep)).
    by rewrite IH.
  - pose proof (Split_nonempty s sep) as Hne.
    destruct (Split s sep) as [|w ws] eqn:Hs; [done|].
    destruct ws as [|w' ws]; simpl in *; by rewrite <- IH.
Qed.

Lemma SplitN_2 s sep :
  SplitN s sep 2
  = match Cut s sep with Some (before, after) => [before; after] | None => [s] end.
Proof. simpl. by destruct (Cut s sep) as [[? ?]|]. Qed.

Lemma omap_cons_app {A B} (f : A → option B) x l :
  omap f (x :: l) = option_list (f x) ++ omap f l.
Proof.
  change (omap f (x :: l))
    with (match f x with Some y => y :: omap f l | None => omap f l end).
  by destruct (f x).
Qed.

Lemma last_omap_cons {A B} (f : A → option B) x l :
  last (omap f (x :: l))
  = match last (omap f l) with Some z => Some z | None => f x end.
Proof.
  change (omap f (x :: l))
    with (match f x with Some y => y :: omap f l | None => omap f l end).
  destruct (f x) as [y|].
  - rewrite last_cons. by destruct (last (omap f l)).
  - by destruct (last (omap f l)).
Qed.

(** ** The loops of [configFromEnv] *)

Lemma level_entry_spec cfg out kvs :
  let cfg' := (level_entry (cfg, out) kvs).1 in
  Format cfg' = Format cfg ∧ Stderr cfg' = Stderr cfg ∧ Stdout cfg' = Stdout cfg
  ∧ File cfg' = File cfg ∧ URL cfg' = URL cfg ∧ Labels cfg' = Labels cfg
  ∧ Level cfg' = default (Level cfg) (bare_level kvs)
  ∧ (∀ n, SubsystemLevels cfg' !! n
          = match override_level n kvs with
            | Some l => Some l
            | None => SubsystemLevels cfg !! n
            end)
  ∧ (level_entry (cfg, out) kvs).2 = out ++ option_list (level_warning kvs).
Proof.
  unfold level_entry, bare_level, override_level, level_warning.
  rewrite SplitN_2.
  destruct (Cut kvs sep_equal) as [[k v]|]; simpl.
  - destruct (LevelFromString v) as [lvl|err]; simpl.
    + rewrite app_nil_r. split_and!; try done.
      intros n. destruct (decide (k = n)) as [->|Hne].
      * by rewrite lookup_insert_eq.
      * by rewrite lookup_insert_ne.
    + split_and!; try done. intros n. by case_decide.
  - destruct (LevelFromString kvs) as [lvl|err]; simpl; rewrite ?app_nil_r;
      by split_and!.
Qed.

Lemma level_loop toks cfg out :
  let cfg' := (foldl level_entry (cfg, out) toks).1 in
  Format cfg' = Format cfg ∧ Stderr cfg' = Stderr cfg ∧ Stdout cfg' = Stdout cfg
  ∧ File cfg' = File cfg ∧ URL cfg' = URL cfg ∧ Labels cfg' = Labels cfg
  ∧ Level cfg' = default (Level cfg) (last (omap bare_level toks))
  ∧ (∀ n, SubsystemLevels cfg' !! n
          = match last (omap (override_level n) toks) with
            | Some l => Some l
            | None => SubsystemLevels cfg !! n
            end)
  ∧ (foldl level_entry (cfg, out) toks).2 = out ++ omap level_warning toks.
Proof.
  revert cfg out. induction toks as [|t toks IH]; intros cfg out.
  - simpl. rewrite app_nil_r. by split_and!.
  - cbn [foldl]. destruct (level_entry (cfg, out) t) as [cfg1 out1] eqn:E.
    pose proof (level_entry_spec cfg out t) as H1. rewrite E in H1.
    cbv zeta in H1. simpl in H1.
    destruct H1 as (F1 & E1 & O1 & I1 & U1 & L1 & V1 & S1 & W1).
    destruct (IH cfg1 out1) as (F2 & E2 & O2 & I2 & U2 & L2 & V2 & S2 & W2).
    cbv zeta. split_and!; try congruence.
    + rewrite V2, V1, last_omap_cons.
      by destruct (last (omap bare_level toks)).
    + intros n. rewrite S2, S1, last_omap_cons.
      by destruct (last (omap (override_level n) toks)).
    + rewrite W2, W1, omap_cons_app. by rewrite app_assoc.
Qed.

Lemma output_loop opts cfg out :
  let cfg' := (foldl output_option (cfg, out) opts).1 in
  Format cfg' = Format cfg ∧ File cfg' = File cfg ∧ URL cfg' = URL cfg
  ∧ Level cfg' = Level cfg ∧ SubsystemLevels cfg' = SubsystemLevels cfg
  ∧ Labels cfg' = Labels cfg
  ∧ Stdout cfg' = Stdout cfg || bool_decide ("stdout" ∈ opts)
  ∧ Stderr cfg' = Stderr cfg || bool_decide ("stderr" ∈ opts)
  ∧ (foldl output_option (cfg, out) opts).2
    = out ++ omap (output_warning (File cfg) (URL cfg)) opts.
Proof.
  revert cfg out. induction opts as [|o opts IH]; intros cfg out.
  - cbn [foldl fst snd]. rewrite !bool_decide_eq_false_2 by apply not_elem_of_nil.
    by rewrite !orb_false_r, app_nil_r.
  - cbn [foldl]. destruct (output_option (cfg, out) o) as [cfg1 out1] eqn:E.
    destruct (IH cfg1 out1) as (F2 & I2 & U2 & V2 & S2 & L2 & O2 & E2 & W2).
    cbv zeta. rewrite F2, I2, U2, V2, S2, L2, O2, E2, W2.
    clear IH F2 I2 U2 V2 S2 L2 O2 E2 W2.
    rewrite omap_cons_app. unfold output_warning at 2.
    unfold output_option in E.
    assert (Hcons : ∀ x : string,
      bool_decide (x ∈ o :: opts) = bool_decide (o = x) || bool_decide (x ∈ opts)).
    { intros x. rewrite <- bool_decide_or. apply bool_decide_ext.
      rewrite elem_of_cons. split; intros [->|?]; auto. }
    rewrite !Hcons.
    repeat case_decide; injection E as <- <-; subst; simpl;
      rewrite ?bool_decide_eq_true_2, ?bool_decide_eq_false_2 by done;
      rewrite ?orb_true_r, ?app_nil_r, <- ?app_assoc; simpl; try done.
Qed.

Lemma label_entry_spec cfg out label :
  let cfg' := (label_entry (cfg, out) label).1 in
  Format cfg' = Format cfg ∧ Stderr cfg' = Stderr cfg ∧ Stdout cfg' = Stdout cfg
  ∧ File cfg' = File cfg ∧ URL cfg' = URL cfg ∧ Level cfg' = Level cfg
  ∧ SubsystemLevels cfg' = SubsystemLevels cfg
  ∧ (∀ k, Labels cfg' !! k
          = match label_value k label with
            | Some v => Some v
            | None => Labels cfg !! k
            end)
  ∧ (label_entry (cfg, out) label).2 = out ++ option_list (label_warning label).
Proof.
  unfold label_entry, label_value, label_warning.
  destruct (Split label sep_equal) as [|k [|v [|x kv]]]; simpl;
    rewrite ?app_nil_r; split_and!; try done.
  intros k'. destruct (decide (k = k')) as [->|Hne].
  - by rewrite lookup_insert_eq.
  - by rewrite lookup_insert_ne.
Qed.

Lemma label_loop toks cfg out :
  let cfg' := (foldl label_entry (cfg, out) toks).1 in
  Format cfg' = Format cfg ∧ Stderr cfg' = Stderr cfg ∧ Stdout cfg' = Stdout cfg
  ∧ File cfg' = File cfg ∧ URL cfg' = URL cfg ∧ Level cfg' = Level cfg
  ∧ SubsystemLevels cfg' = SubsystemLevels cfg
  ∧ (∀ k, Labels cfg' !! k
          = match last (omap (label_value k) toks) with
            | Some v => Some v
            | None => Labels cfg !! k
            end)
  ∧ (foldl label_entry (cfg, out) toks).2 = out ++ omap label_warning toks.
Proof.
  revert cfg out. induction toks as [|t toks IH]; intros cfg out.
  - simpl. rewrite app_nil_r. by split_and!.
  - cbn [foldl]. destruct (label_entry (cfg, out) t) as [cfg1 out1] eqn:E.
    pose proof (label_entry_spec cfg out t) as H1. rewrite E in H1.
    cbv zeta in H1. simpl in H1.
    destruct H1 as (F1 & E1 & O1 & I1 & U1 & V1 & S1 & L1 & W1).
    destruct (IH cfg1 out1) as (F2 & E2 & O2 & I2 & U2 & V2 & S2 & L2 & W2).
    cbv zeta. split_and!; try congruence.
    + intros k. rewrite L2, L1, last_omap_cons.
      by destruct (last (omap (label_value k) toks)).
    + rewrite W2, W1, omap_cons_app. by rewrite app_assoc.
Qed.

(** The configuration read from the environment, field by field. *)
Lemma configFromEnv_fields :
  let cfg := configFromEnv.1 in
  let opts := Split (Getenv envLoggingOutput) sep_plus in
  File cfg = Getenv envLoggingFile
  ∧ URL cfg = Getenv envLoggingURL
  ∧ Stdout cfg = bool_decide ("stdout" ∈ opts)
  ∧ Stderr cfg
    = bool_decide (Getenv envLoggingFile = "") || bool_decide ("stderr" ∈ opts)
  ∧ Level cfg
    = default LevelError (last (omap bare_level (entries (Getenv envLoggingLvl))))
  ∧ (∀ n, SubsystemLevels cfg !! n
          = last (omap (override_level n) (entries (Getenv envLoggingLvl))))
  ∧ (∀ k, Labels cfg !! k
          = last (omap (label_value k) (entries (Getenv envLoggingLabels))))
  ∧ (Format cfg
    = if decide (Getenv envLoggingFmt = "color") then FormatColorizedOutput
      else if decide (Getenv envLoggingFmt = "nocolor") then FormatPlaintextOutput
      else if decide (Getenv envLoggingFmt = "json") then FormatJSONOutput
      else if (Stdout cfg && isTerm Stdout_fd)
              || (Stderr cfg && isTerm Stderr_fd)
              || (bool_decide (File cfg ≠ "") && pathIsTerm (File cfg))
           then FormatColorizedOutput
           else FormatPlaintextOutput)
  ∧ configFromEnv.2
    = format_warning (Getenv envLoggingFmt)
      ++ omap level_warning (entries (Getenv envLoggingLvl))
      ++ omap (output_warning (Getenv envLoggingFile) (Getenv envLoggingURL)) opts
      ++ omap label_warning (entries (Getenv envLoggingLabels)).
Proof.
  unfold configFromEnv. cbv zeta.
  set (base := {| Format := FormatColorizedOutput; Stderr := true;
                  Stdout := false; File := ""; URL := "";
                  Level := LevelError; SubsystemLevels := ∅; Labels := ∅ |}).
  (* the format *)
  destruct (if decide (Getenv envLoggingFmt = "color") then _ else _)
    as [[cfg0 nef] out0] eqn:E0.
  assert (H0 : Stderr cfg0 = true ∧ Stdout cfg0 = false
               ∧ Level cfg0 = LevelError ∧ SubsystemLevels cfg0 = ∅
               ∧ Labels cfg0 = ∅
               ∧ Format cfg0
                 = (if decide (Getenv envLoggingFmt = "color")
                    then FormatColorizedOutput
                    else if decide (Getenv envLoggingFmt = "nocolor")
                    then FormatPlaintextOutput
                    else if decide (Getenv envLoggingFmt = "json")
                    then FormatJSONOutput else FormatColorizedOutput)
               ∧ nef
                 = (if decide (Getenv envLoggingFmt = "color") then false
                    else if decide (Getenv envLoggingFmt = "nocolor") then false
                    else if decide (Getenv envLoggingFmt = "json") then false
                    else true)
               ∧ out0 = format_warning (Getenv envLoggingFmt)).
  { unfold format_warning. repeat case_decide; by injection E0 as <- <- <-. }
  clear E0. destruct H0 as (E0 & O0 & V0 & S0 & L0 & F0 & N0 & W0).
  (* the levels *)
  assert (Hent : ∀ (f : Config * list EnvWarning → string → Config * list EnvWarning)
                   acc value,
    (if decide (value ≠ "") then foldl f acc (Split value sep_comma) else acc)
    = foldl f acc (entries value)).
  { intros f acc value. unfold entries. by destruct (decide (value ≠ "")). }
  rewrite !Hent.
  pose proof (level_loop (entries (Getenv envLoggingLvl)) cfg0 out0) as H1.
  destruct (foldl level_entry _ _) as [cfg1 out1]. cbv zeta in H1. simpl in H1.
  destruct H1 as (F1 & E1 & O1 & I1 & U1 & L1 & V1 & S1 & W1).
  (* the file, the URL, the outputs *)
  set (cfgU := with_URL _ _).
  pose proof (output_loop (Split (Getenv envLoggingOutput) sep_plus) cfgU out1)
    as H2.
  destruct (foldl output_option _ _) as [cfg2 out2]. cbv zeta in H2. simpl in H2.
  destruct H2 as (F2 & I2 & U2 & V2 & S2 & L2 & O2 & E2 & W2).
  (* the terminals *)
  set (cfgF := if _ && _ && _ && _ then with_Format FormatPlaintextOutput cfg2
               else cfg2).
  assert (HF : File cfgF = File cfg2 ∧ URL cfgF = URL cfg2
               ∧ Stdout cfgF = Stdout cfg2 ∧ Stderr cfgF = Stderr cfg2
               ∧ Level cfgF = Level cfg2
               ∧ SubsystemLevels cfgF = SubsystemLevels cfg2
               ∧ Labels cfgF = Labels cfg2).
  { unfold cfgF. by destruct (_ && _ && _ && _). }
  destruct HF as (IF & UF & OF & EF & VF & SF & LF).
  (* the labels *)
  rewrite ?Hent.
  pose proof (label_loop (entries (Getenv envLoggingLabels)) cfgF out2) as H3.
  destruct (foldl label_entry _ _) as [cfg3 out3]. cbv zeta in H3. simpl in H3.
  destruct H3 as (F3 & E3 & O3 & I3 & U3 & V3 & S3 & L3 & W3).
  cbn [fst snd].
  assert (HI : File cfg3 = Getenv envLoggingFile).
  { rewrite I3, IF, I2. unfold cfgU. simpl. by case_decide. }
  assert (HO : Stdout cfg3
               = bool_decide ("stdout" ∈ Split (Getenv envLoggingOutput) sep_plus)).
  { rewrite O3, OF, O2. unfold cfgU. simpl.
    replace (Stdout (if decide _ then _ else _)) with (Stdout cfg1)
      by by case_decide.
    by rewrite O1, O0. }
  assert (HE : Stderr cfg3
               = bool_decide (Getenv envLoggingFile = "")
                 || bool_decide ("stderr" ∈ Split (Getenv envLoggingOutput) sep_plus)).
  { rewrite E3, EF, E2. unfold cfgU. simpl. f_equal.
    case_decide as Hf; simpl.
    - by rewrite bool_decide_eq_false_2.
    - rewrite E1, E0. rewrite bool_decide_eq_true_2; [done|].
      by destruct (decide (Getenv envLoggingFile = "")). }
  split_and!.
  - done.
  - rewrite U3, UF, U2. by unfold cfgU.
  - done.
  - done.
  - rewrite V3, VF, V2. unfold cfgU. simpl.
    replace (Level (if decide _ then _ else _)) with (Level cfg1)
      by by case_decide.
    by rewrite V1, V0.
  - intros n. rewrite S3, SF, S2. unfold cfgU. simpl.
    replace (SubsystemLevels (if decide _ then _ else _))
      with (SubsystemLevels cfg1) by by case_decide.
    rewrite S1, S0, lookup_empty.
    by destruct (last (omap (override_level n) _)).
  - intros k. rewrite L3, LF, L2. unfold cfgU. simpl.
    replace (Labels (if decide _ then _ else _)) with (Labels cfg1)
      by by case_decide.
    rewrite L1, L0, lookup_empty.
    by destruct (last (omap (label_value k) _)).
  - rewrite F3, O3, OF, E3, EF, I3, IF. unfold cfgF.
    assert (HF2 : Format cfg2 = Format cfg0).
    { rewrite F2. unfold cfgU. simpl.
      replace (Format (if decide _ then _ else _)) with (Format cfg1)
        by by case_decide.
      done. }
    rewrite N0. repeat case_decide; simpl.
    all: try (rewrite ?HF2, ?F0; rewrite ?decide_True, ?decide_False by done;
              done).
    all: destruct (Stdout cfg2 && isTerm Stdout_fd),
           (Stderr cfg2 && isTerm Stderr_fd); simpl;
         try destruct (pathIsTerm (File cfg2)); simpl;
         rewrite ?HF2, ?F0; rewrite ?decide_True, ?decide_False by done; done.
  - rewrite W3, W2, W1, W0. unfold cfgU. simpl.
    replace (File (if decide _ then _ else _)) with (Getenv envLoggingFile)
      by by case_decide.
    by rewrite <- !app_assoc.
Qed.

(** ** What the environment decides *)

(** X11.  The destinations read from the environment: stdout is requested
    exactly when [GOLOG_OUTPUT] lists [stdout]; stderr is requested exactly
    when no [GOLOG_FILE] is given or [GOLOG_OUTPUT] lists [stderr]; the file
    and the URL are the values of [GOLOG_FILE] and [GOLOG_URL], whether or
    not [GOLOG_OUTPUT] lists [file] or [url]. *)
Theorem configFromEnv_destinations :
  (Stdout configFromEnv.1 = true
   ↔ "stdout" ∈ Split (Getenv envLoggingOutput) sep_plus)
  ∧ (Stderr configFromEnv.1 = true
     ↔ Getenv envLoggingFile = ""
       ∨ "stderr" ∈ Split (Getenv envLoggingOutput) sep_plus)
  ∧ File configFromEnv.1 = Getenv envLoggingFile
  ∧ URL configFromEnv.1 = Getenv envLoggingURL.
Proof.
  destruct configFromEnv_fields as (HI & HU & HO & HE & _).
  split_and!; try done.
  - rewrite HO. apply bool_decide_eq_true.
  - rewrite HE, orb_true_iff, !bool_decide_eq_true. done.
Qed.

(** X12.  The format read from the environment: [color], [nocolor] and
    [json] in [GOLOG_LOG_FMT] are taken as they are, whatever the
    destinations; with any other value, or none, the format is colorized
    when a requested destination is a terminal (stdout, stderr, or the file,
    which must open for writing) and plain text when none is. *)
Theorem configFromEnv_format :
  Format configFromEnv.1
  = if decide (Getenv envLoggingFmt = "color") then FormatColorizedOutput
    else if decide (Getenv envLoggingFmt = "nocolor") then FormatPlaintextOutput
    else if decide (Getenv envLoggingFmt = "json") then FormatJSONOutput
    else if (bool_decide ("stdout" ∈ Split (Getenv envLoggingOutput) sep_plus)
             && isTerm Stdout_fd)
            || ((bool_decide (Getenv envLoggingFile = "")
                 || bool_decide ("stderr" ∈ Split (Getenv envLoggingOutput) sep_plus))
                && isTerm Stderr_fd)
            || (bool_decide (Getenv envLoggingFile ≠ "")
                && pathIsTerm (Getenv envLoggingFile))
         then FormatColorizedOutput
         else FormatPlaintextOutput.
Proof.
  destruct configFromEnv_fields as (HI & _ & HO & HE & _ & _ & _ & HF & _).
  cbv zeta in *. by rewrite HF, HI, HO, HE.
Qed.

(** X13.  The levels read from [GOLOG_LOG_LEVEL]: the default level is that
    of the last bare entry whose level parses, [LevelError] when there is
    none; the override of a name is the level of the last entry
    [name=level] whose level parses, and there is none otherwise.  Entries
    that do not parse change nothing; an unset variable gives [LevelError]
    and no override. *)
Theorem configFromEnv_levels :
  Level configFromEnv.1
  = default LevelError
      (last (omap bare_level (entries (Getenv envLoggingLvl))))
  ∧ (∀ name,
       SubsystemLevels configFromEnv.1 !! name
       = last (omap (override_level name) (entries (Getenv envLoggingLvl))))
  ∧ (Getenv envLoggingLvl = "" →
       Level configFromEnv.1 = LevelError
       ∧ SubsystemLevels configFromEnv.1 = ∅).
Proof.
  destruct configFromEnv_fields as (_ & _ & _ & _ & HV & HS & _).
  cbv zeta in *. split_and!; try done.
  intros Hun. split.
  - rewrite HV. unfold entries. by rewrite decide_False by (by intros []).
  - apply map_eq. intros n. rewrite HS, lookup_empty. unfold entries.
    by rewrite decide_False by (by intros []).
Qed.

(** X14.  The labels read from [GOLOG_LOG_LABELS]: the value of a key is
    that of the last entry that is exactly [key=value], with one [=]; an
    entry with no [=] or with several gives no label. *)
Theorem configFromEnv_labels :
  (∀ key,
     Labels configFromEnv.1 !! key
     = last (omap (label_value key) (entries (Getenv envLoggingLabels))))
  ∧ (∀ key label, length (Split label sep_equal) ≠ 2 →
       label_value key label = None).
Proof.
  destruct configFromEnv_fields as (_ & _ & _ & _ & _ & _ & HL & _).
  cbv zeta in HL. split; [done|].
  intros key label Hlen. unfold label_value.
  by destruct (Split label sep_equal) as [|k [|v [|x kv]]].
Qed.

(** X15.  What [init] opens: stderr unless a file is given and
    [GOLOG_OUTPUT] does not list [stderr]; stdout if [GOLOG_OUTPUT] lists it;
    the file of [GOLOG_FILE] if it resolves; the sink of [GOLOG_URL].
    [init] panics exactly when [zap.Open] fails on that list. *)
Theorem init_destinations :
  let dests :=
    (if bool_decide (Getenv envLoggingFile = "")
        || bool_decide ("stderr" ∈ Split (Getenv envLoggingOutput) sep_plus)
     then ["stderr"] else []) ++
    (if bool_decide ("stdout" ∈ Split (Getenv envLoggingOutput) sep_plus)
     then ["stdout"] else []) ++
    (if 0 <? String.length (Getenv envLoggingFile) then
       match normalizePath (Getenv envLoggingFile) with
       | inl path => [path]
       | inr _ => []
       end
     else []) ++
    (if 0 <? String.length (Getenv envLoggingURL)
     then [Getenv envLoggingURL] else []) in
  outputPaths configFromEnv.1 = dests
  ∧ match zap_Open dests with
    | None => ∃ st0, init = Panicked st0
    | Some outputs =>
        ∃ st core,
          init = Returned tt st
          ∧ primaryCore st = Some core
          ∧ core_outputs core = outputs
    end.
Proof.
  destruct configFromEnv_fields as (HI & HU & HO & HE & _).
  cbv zeta in *.
  assert (Hd : outputPaths configFromEnv.1
    = (if bool_decide (Getenv envLoggingFile = "")
          || bool_decide ("stderr" ∈ Split (Getenv envLoggingOutput) sep_plus)
       then ["stderr"] else []) ++
      (if bool_decide ("stdout" ∈ Split (Getenv envLoggingOutput) sep_plus)
       then ["stdout"] else []) ++
      (if 0 <? String.length (Getenv envLoggingFile) then
         match normalizePath (Getenv envLoggingFile) with
         | inl path => [path]
         | inr _ => []
         end
       else []) ++
      (if 0 <? String.length (Getenv envLoggingURL)
       then [Getenv envLoggingURL] else [])).
  { unfold outputPaths. by rewrite HI, HU, HO, HE. }
  split; [done|]. rewrite <- Hd. unfold init.
  destruct (SetupLogging_before_Open configFromEnv.1 initial)
    as (st0 & _ & _ & _ & _ & _ & _ & _ & _ & _ & ->).
  destruct (zap_Open _) as [outputs|]; [|by exists st0].
  eexists _, _. split; [reflexivity|].
  rewrite subsystem_loop_primaryCore, setAllLoggerLevel_heap. simpl.
  split; [reflexivity|]. by rewrite core_With_outputs.
Qed.

(** X16.  After an [init] that returns there is no logger yet, the process
    default is the level read from the environment, and the names with a
    level are exactly the overrides read from [GOLOG_LOG_LEVEL], each at its
    level: these are the levels their loggers will start with. *)
Theorem init_levels st :
  init = Returned tt st →
  loggers st = ∅
  ∧ defaultLevel st = Level configFromEnv.1
  ∧ (∀ name, level_of name st = SubsystemLevels configFromEnv.1 !! name)
  ∧ ∀ name h st', name ≠ "" → Logger name st = (h, st') →
      GetLevel (lg_level (sugared h)) st'
      = Some (default (Level configFromEnv.1)
                (SubsystemLevels configFromEnv.1 !! name)).
Proof.
  unfold init. intros HS.
  destruct (SetupLogging_levels _ _ _ wf_initial HS)
    as (Hwf & Hl & Hd & _ & Hnone & Hsub & Hlv).
  split; [done|]. split; [done|]. split.
  - intros name.
    destruct (SubsystemLevels configFromEnv.1 !! name) as [l|] eqn:Hs.
    + rewrite (Hlv name (Hsub name l Hs)), Hs. done.
    + unfold level_of. rewrite (Hnone name); [done|apply lookup_empty|done].
  - intros name h st' Hne HL.
    rewrite Logger_named in HL by done. injection HL as <- <-. simpl.
    destruct (getLogger_registered name st Hwf) as (_ & Hv2 & _).
    assert (Hlv' : level_of name (getLogger name st).2
                   = Some (default (Level configFromEnv.1)
                             (SubsystemLevels configFromEnv.1 !! name))).
    { destruct (levels st !! name) as [a|] eqn:Hn.
      - rewrite getLogger_level_of; [|done|by exists a]. apply Hlv. by exists a.
      - rewrite getLogger_default by done. rewrite Hd.
        destruct (SubsystemLevels configFromEnv.1 !! name) as [l|] eqn:Hs;
          [|done].
        destruct (Hsub name l Hs) as [a Ha]. congruence. }
    unfold level_of in Hlv'. by rewrite Hv2 in Hlv'.
Qed.

(** X17.  What [configFromEnv] prints, in this order: one line for a value
    of [GOLOG_LOG_FMT] that is none of [color], [nocolor], [json] and not
    empty; one line for each entry of [GOLOG_LOG_LEVEL] whose level does not
    parse; one line each time [GOLOG_OUTPUT] lists [file] without a
    [GOLOG_FILE], or [url] without a [GOLOG_URL]; one line for each entry of
    [GOLOG_LOG_LABELS] that is not [key=value] with exactly one [=].  With
    no variable set it prints nothing. *)
Theorem configFromEnv_warnings :
  configFromEnv.2
  = format_warning (Getenv envLoggingFmt)
    ++ omap level_warning (entries (Getenv envLoggingLvl))
    ++ omap (output_warning (Getenv envLoggingFile) (Getenv envLoggingURL))
         (Split (Getenv envLoggingOutput) sep_plus)
    ++ omap label_warning (entries (Getenv envLoggingLabels))
  ∧ ((∀ name, Getenv name = "") → configFromEnv.2 = []).
Proof.
  destruct configFromEnv_fields as (_ & _ & _ & _ & _ & _ & _ & _ & HW).
  cbv zeta in HW. split; [done|].
  intros Hun. rewrite HW, !Hun. reflexivity.
Qed.

End Registry.

(** ** The claims on concrete registries *)

Lemma range_list_perm (A : Type) (m : gmap string A) :
  range_list m ≡ₚ map_to_list m.
Proof. reflexivity. Qed.

Ltac by_computation := vm_compute; reflexivity.

(** C1 at work: with loggers ["x"] and ["abcd"] created, [cfg_demo] leaves
    ["x"] at the new default, ["abcd"] at its override, and gives ["a"] a
    holder of its own. *)
Lemma SetupLogging_reset_then_apply_witness :
  wf (Logger "abcd" (Logger "x" initial).2).2
  ∧ ∃ st',
      SetupLogging (@range_list) normalizePath_id zap_Open_all cfg_demo
        (Logger "abcd" (Logger "x" initial).2).2 = Returned tt st'
      ∧ level_of "x" st' = Some LevelWarn
      ∧ level_of "abcd" st' = Some LevelDebug
      ∧ level_of "a" st' = Some LevelInfo.
Proof.
  assert (Hwf : wf (Logger "abcd" (Logger "x" initial).2).2).
  { apply Logger_wf, Logger_wf, wf_initial. }
  split; [exact Hwf|].
  assert (Hopen : zap_Open_all (outputPaths normalizePath_id cfg_demo)
                  = Some ["stderr"; "stdout"; "/var/log/app.log"; "udp://sink"])
    by by_computation.
  assert (Hx : levels (Logger "abcd" (Logger "x" initial).2).2 !! "x" = Some 0)
    by by_computation.
  assert (Hb : levels (Logger "abcd" (Logger "x" initial).2).2 !! "abcd" = Some 1)
    by by_computation.
  assert (Ha : levels (Logger "abcd" (Logger "x" initial).2).2 !! "a" = None)
    by by_computation.
  assert (Hsx : SubsystemLevels cfg_demo !! "x" = None) by by_computation.
  assert (Hsb : SubsystemLevels cfg_demo !! "abcd" = Some LevelDebug)
    by by_computation.
  assert (Hsa : SubsystemLevels cfg_demo !! "a" = Some LevelInfo)
    by by_computation.
  destruct (SetupLogging_reset_then_apply (@range_list) range_list_perm
              normalizePath_id zap_Open_all cfg_demo _ _ Hwf Hopen)
    as (st' & HS & Hold & Hnew).
  exists st'. split; [exact HS|].
  split; [|split].
  - destruct (Hold "x" 0 Hx) as [_ Hl]. rewrite Hsx in Hl. exact Hl.
  - destruct (Hold "abcd" 1 Hb) as [_ Hl]. rewrite Hsb in Hl. exact Hl.
  - destruct (Hnew "a" LevelInfo Ha Hsa) as (a & _ & _ & Hl). exact Hl.
Defined.

(** C2 at work: ["abcd"] is obtained, then its level is set, the package is
    reconfigured, other loggers appear; the second [Logger "abcd"] is the
    first one, and after [SetLogLevel "abcd" "error"] neither handle lets a
    debug record through. *)
Lemma Logger_idempotent_witness :
  (Logger "abcd"
     (run_all (@range_list) LevelFromString_spec normalizePath_id string
        prefix_Compile prefix_Match zap_Open_all
        [OpSetLogLevel "abcd" "debug"; OpSetupLogging cfg_demo;
         OpLogger ""; OpSetLogLevelRegex "^ab" "warn"]
        (Logger "abcd" initial).2)).1
  = (Logger "abcd" initial).1
  ∧ Enabled (lg_level (skipLogger (Logger "abcd" initial).1)) LevelDebug
      (SetLogLevel (@range_list) LevelFromString_spec "abcd" "error"
         (Logger "abcd"
            (run_all (@range_list) LevelFromString_spec normalizePath_id string
               prefix_Compile prefix_Match zap_Open_all
               [OpSetLogLevel "abcd" "debug"; OpSetupLogging cfg_demo;
                OpLogger ""; OpSetLogLevelRegex "^ab" "warn"]
               (Logger "abcd" initial).2)).2).2
    = false.
Proof.
  assert (Hne : "abcd" ≠ "") by discriminate.
  destruct (Logger "abcd" initial) as [h1 st1] eqn:H1.
  cbn [fst snd].
  destruct (Logger "abcd" (run_all _ _ _ _ _ _ _ _ st1)) as [h2 st3] eqn:H2.
  cbn [fst snd].
  destruct (Logger_idempotent (@range_list) range_list_perm LevelFromString_spec
              normalizePath_id string prefix_Compile prefix_Match zap_Open_all
              "abcd" initial _ h1 st1 h2 st3 wf_initial Hne H1 H2)
    as (Heq & _ & _ & _ & _ & _ & Hset).
  split; [exact Heq|].
  assert (Hlvl : LevelFromString_spec "error" = inl LevelError) by by_computation.
  exact (proj1 (Hset "error" LevelError LevelDebug Hlvl)).
Defined.

(** C3 as stated fails: with stderr and stdout both requested the code opens
    stderr first, and the file after both, where the stated order puts the
    file first and stdout before stderr. *)
Lemma SetupLogging_output_order_counterexample :
  ∃ st' core,
    SetupLogging (@range_list) normalizePath_id zap_Open_all cfg_demo initial
    = Returned tt st'
    ∧ primaryCore st' = Some core
    ∧ core_outputs core = ["stderr"; "stdout"; "/var/log/app.log"; "udp://sink"]
    ∧ outputPaths_spec normalizePath_id cfg_demo
      = ["/var/log/app.log"; "stdout"; "stderr"; "udp://sink"]
    ∧ core_outputs core ≠ outputPaths_spec normalizePath_id cfg_demo.
Proof.
  eexists _, _. split; [by_computation|]. split; [by_computation|].
  split; [by_computation|]. split; [by_computation|].
  vm_compute. discriminate.
Qed.

(** C3 at work on [cfg_demo]. *)
Lemma SetupLogging_output_order_witness :
  ∃ st' core,
    SetupLogging (@range_list) normalizePath_id zap_Open_all cfg_demo initial
    = Returned tt st'
    ∧ primaryCore st' = Some core
    ∧ core_outputs core = ["stderr"; "stdout"; "/var/log/app.log"; "udp://sink"].
Proof.
  assert (Hopen : zap_Open_all (outputPaths normalizePath_id cfg_demo)
                  = Some ["stderr"; "stdout"; "/var/log/app.log"; "udp://sink"])
    by by_computation.
  exact (proj2 (SetupLogging_output_order (@range_list) normalizePath_id
                  zap_Open_all cfg_demo initial) _ Hopen).
Defined.

(** C4 at work: of the loggers ["db"] and ["svc-a"], the pattern [^svc-]
    moves ["svc-a"] only; a pattern that does not compile changes nothing. *)
Lemma SetLogLevelRegex_spec_witness :
  wf (Logger "svc-a" (Logger "db" initial).2).2
  ∧ (∃ st',
       SetLogLevelRegex (@range_list) LevelFromString_spec string prefix_Compile
         prefix_Match "^svc-" "warn" (Logger "svc-a" (Logger "db" initial).2).2
       = Returned None st'
       ∧ level_of "svc-a" st' = Some LevelWarn
       ∧ level_of "db" st' = Some LevelError)
  ∧ SetLogLevelRegex (@range_list) LevelFromString_spec string prefix_Compile
      prefix_Match "svc-(" "warn" (Logger "svc-a" (Logger "db" initial).2).2
    = Returned (Some (ErrInvalidPattern "svc-("))
        (Logger "svc-a" (Logger "db" initial).2).2.
Proof.
  set (st := (Logger "svc-a" (Logger "db" initial).2).2).
  assert (Hwf : wf st) by apply Logger_wf, Logger_wf, wf_initial.
  split; [exact Hwf|].
  assert (Hlvl : LevelFromString_spec "warn" = inl LevelWarn) by by_computation.
  assert (Hre : prefix_Compile "^svc-" = inl "svc-") by by_computation.
  assert (Hbadre : prefix_Compile "svc-(" = inr (ErrInvalidPattern "svc-("))
    by by_computation.
  assert (Hlg : is_Some (loggers st !! "svc-a")) by (vm_compute; by eexists).
  assert (Hm : prefix_Match "svc-" "svc-a" = true) by by_computation.
  assert (Hnm : prefix_Match "svc-" "db" = false) by by_computation.
  assert (Hdb : level_of "db" st = Some LevelError) by by_computation.
  destruct (SetLogLevelRegex_spec (@range_list) range_list_perm
              LevelFromString_spec string prefix_Compile prefix_Match
              "^svc-" "warn" st Hwf) as (_ & _ & Hok).
  destruct (SetLogLevelRegex_spec (@range_list) range_list_perm
              LevelFromString_spec string prefix_Compile prefix_Match
              "svc-(" "warn" st Hwf) as (_ & Hbad & _).
  split.
  - destruct (Hok LevelWarn "svc-" Hlvl Hre) as (st' & HS & _ & _ & Hmat & Hun & _).
    exists st'. split; [exact HS|]. split.
    + exact (Hmat "svc-a" Hlg Hm).
    + rewrite (Hun "db" Hnm). exact Hdb.
  - exact (Hbad LevelWarn _ Hlvl Hbadre).
Defined.

(** C5 at work: ["nonexistent-name"] is refused and nothing moves; ["abcd"]
    is set and ["x"] stays. *)
Lemma SetLogLevel_exact_witness :
  wf (Logger "abcd" (Logger "x" initial).2).2
  ∧ SetLogLevel (@range_list) LevelFromString_spec "nonexistent-name" "info"
      (Logger "abcd" (Logger "x" initial).2).2
    = (Some ErrNoSuchLogger, (Logger "abcd" (Logger "x" initial).2).2)
  ∧ ∃ st',
      SetLogLevel (@range_list) LevelFromString_spec "abcd" "INFO"
        (Logger "abcd" (Logger "x" initial).2).2 = (None, st')
      ∧ level_of "abcd" st' = Some LevelInfo
      ∧ level_of "x" st' = Some LevelError.
Proof.
  set (st := (Logger "abcd" (Logger "x" initial).2).2).
  assert (Hwf : wf st) by apply Logger_wf, Logger_wf, wf_initial.
  split; [exact Hwf|].
  assert (Hl1 : LevelFromString_spec "info" = inl LevelInfo) by by_computation.
  assert (Hl2 : LevelFromString_spec "INFO" = inl LevelInfo) by by_computation.
  assert (Hno : levels st !! "nonexistent-name" = None) by by_computation.
  assert (Hb : levels st !! "abcd" = Some 1) by by_computation.
  assert (Hx : level_of "x" st = Some LevelError) by by_computation.
  split.
  - assert (Hne : "nonexistent-name" ≠ "*") by discriminate.
    exact (proj1 (SetLogLevel_exact (@range_list) LevelFromString_spec
                    "nonexistent-name" "info" LevelInfo st Hwf Hne Hl1) Hno).
  - assert (Hne : "abcd" ≠ "*") by discriminate.
    destruct (proj2 (SetLogLevel_exact (@range_list) LevelFromString_spec
                       "abcd" "INFO" LevelInfo st Hwf Hne Hl2) 1 Hb)
      as (st' & HS & _ & _ & _ & Hset & Hoth).
    exists st'. split; [exact HS|]. split; [exact Hset|].
    assert (Hxb : "x" ≠ "abcd") by discriminate.
    rewrite (Hoth "x" Hxb). exact Hx.
Defined.

(** C6 as stated fails: ["a"] has a holder pre-created by [SetupLogging] and
    no logger; after [SetLogLevel "*" "debug"] the subsystem that
    [Logger "a"] creates filters at debug, the wildcard's level, not at the
    process default. *)
Lemma SetLogLevel_wildcard_counterexample :
  let st0 := state_after (SetupLogging (@range_list) normalizePath_id
                            zap_Open_all cfg_demo initial) in
  let st1 := (SetLogLevel (@range_list) LevelFromString_spec "*" "debug" st0).2 in
  let h := (Logger "a" st1).1 in
  let st2 := (Logger "a" st1).2 in
  loggers st1 !! "a" = None
  ∧ loggers st2 !! "a" = Some (sugared h)
  ∧ defaultLevel st2 = LevelWarn
  ∧ GetLevel (lg_level (skipLogger h)) st2 = Some LevelDebug
  ∧ level_of "a" st2 ≠ Some (defaultLevel st2).
Proof.
  vm_compute. split; [reflexivity|]. split; [reflexivity|].
  split; [reflexivity|]. split; [reflexivity|]. discriminate.
Qed.

(** C6 at work: after [cfg_demo] and a logger ["x"], the wildcard moves
    ["x"] and the pre-configured ["a"] to debug; a fresh ["y"] then starts at
    the default, and ["a"] at debug. *)
Lemma SetLogLevel_wildcard_witness :
  wf (Logger "x" (state_after (SetupLogging (@range_list) normalizePath_id
                                 zap_Open_all cfg_demo initial))).2
  ∧ ∃ st1,
      SetLogLevel (@range_list) LevelFromString_spec "*" "debug"
        (Logger "x" (state_after (SetupLogging (@range_list) normalizePath_id
                                    zap_Open_all cfg_demo initial))).2
      = (None, st1)
      ∧ level_of "x" st1 = Some LevelDebug
      ∧ level_of "a" st1 = Some LevelDebug
      ∧ level_of "y" (Logger "y" st1).2 = Some LevelWarn
      ∧ level_of "a" (Logger "a" st1).2 = Some LevelDebug.
Proof.
  set (st := (Logger "x" _).2).
  assert (Hwf : wf st).
  { apply Logger_wf, SetupLogging_wf, wf_initial. apply range_list_perm. }
  split; [exact Hwf|].
  assert (Hlvl : LevelFromString_spec "debug" = inl LevelDebug) by by_computation.
  assert (Hx : is_Some (levels st !! "x")) by (vm_compute; by eexists).
  assert (Ha : is_Some (levels st !! "a")) by (vm_compute; by eexists).
  assert (Hy : levels st !! "y" = None) by by_computation.
  assert (Hly : loggers st !! "y" = None) by by_computation.
  assert (Hla : loggers st !! "a" = None) by by_computation.
  assert (Hd : defaultLevel st = LevelWarn) by by_computation.
  destruct (SetLogLevel_wildcard (@range_list) range_list_perm
              LevelFromString_spec "debug" LevelDebug st Hwf Hlvl)
    as (st1 & HS & Hl & Hv & _ & Hall & Hnew).
  exists st1. split; [exact HS|].
  split; [exact (Hall "x" Hx)|]. split; [exact (Hall "a" Ha)|].
  assert (Hney : "y" ≠ "") by discriminate.
  assert (Hnea : "a" ≠ "") by discriminate.
  rewrite <- Hl in Hly, Hla. rewrite <- Hv in Hy, Ha.
  split.
  - destruct (Hnew "y" (Logger "y" st1).1 (Logger "y" st1).2 Hney
                (surjective_pairing _) Hly) as (_ & Hdef & _).
    rewrite (Hdef Hy). by rewrite Hd.
  - destruct (Hnew "a" (Logger "a" st1).1 (Logger "a" st1).2 Hnea
                (surjective_pairing _) Hla) as (_ & _ & Hpre).
    exact (Hpre Ha).
Defined.

(** C7 at work, from the initial registry: the error record is written, and
    the handle is the one of ["undefined"]. *)
Lemma Logger_empty_name_witness :
  system (Logger "" initial).1 = "undefined"
  ∧ written (Logger "" initial).2
    = [{| e_logger := "setup-logger"; e_level := LevelError;
          e_message := "Missing name parameter" |}]
  ∧ Logger "undefined" (Logger "" initial).2 = Logger "" initial
  ∧ (Logger "" (Logger "" initial).2).1 = (Logger "" initial).1.
Proof.
  destruct (Logger_empty_name initial (Logger "" initial).1 (Logger "" initial).2
              wf_initial (surjective_pairing _))
    as (Hs & _ & _ & _ & (lv & Hlv & Hw) & Hu & Hr & _).
  split; [exact Hs|]. split; [|split; [|exact Hr]].
  - by_computation.
  - rewrite Hu. symmetry. apply surjective_pairing.
Defined.

(** C8 at work: after ["x"] and ["y"] the list holds exactly these two. *)
Lemma GetSubsystems_names_witness :
  NoDup (GetSubsystems (@range_list) (Logger "y" (Logger "x" initial).2).2)
  ∧ ("x" ∈ GetSubsystems (@range_list) (Logger "y" (Logger "x" initial).2).2)
  ∧ ("y" ∈ GetSubsystems (@range_list) (Logger "y" (Logger "x" initial).2).2)
  ∧ ("z" ∉ GetSubsystems (@range_list) (Logger "y" (Logger "x" initial).2).2).
Proof.
  set (st := (Logger "y" (Logger "x" initial).2).2).
  assert (Hx : is_Some (loggers st !! "x")) by (vm_compute; by eexists).
  assert (Hy : is_Some (loggers st !! "y")) by (vm_compute; by eexists).
  assert (Hz : loggers st !! "z" = None) by by_computation.
  destruct (GetSubsystems_names (@range_list) range_list_perm st)
    as (Hnd & Hin & _).
  split; [exact Hnd|].
  split; [by apply Hin, elem_of_dom|].
  split; [by apply Hin, elem_of_dom|].
  intros [v Hv]%Hin%elem_of_dom. congruence.
Defined.

(** C9 at work: a reconfiguration keeps the logger and the holder of
    ["abcd"]. *)
Lemma entries_never_destroyed_witness :
  loggers (run (@range_list) LevelFromString_spec normalizePath_id string
             prefix_Compile prefix_Match zap_Open_all
             (OpSetupLogging cfg_demo) (Logger "abcd" initial).2) !! "abcd"
  = Some (sugared (Logger "abcd" initial).1)
  ∧ levels (run (@range_list) LevelFromString_spec normalizePath_id string
              prefix_Compile prefix_Match zap_Open_all
              (OpSetupLogging cfg_demo) (Logger "abcd" initial).2) !! "abcd"
    = Some 0.
Proof.
  assert (Hl : loggers (Logger "abcd" initial).2 !! "abcd"
               = Some (sugared (Logger "abcd" initial).1)) by by_computation.
  assert (Hv : levels (Logger "abcd" initial).2 !! "abcd" = Some 0)
    by by_computation.
  destruct (entries_never_destroyed (@range_list) LevelFromString_spec
              normalizePath_id string prefix_Compile prefix_Match zap_Open_all
              (OpSetupLogging cfg_demo) (Logger "abcd" initial).2)
    as (_ & _ & Hkl & Hkv).
  split; [exact (Hkl "abcd" _ Hl)|exact (Hkv "abcd" 0 Hv)].
Defined.

(** C10 at work: [cfg_demo] pre-configures ["a"]; exact name and wildcard
    reach it, the list of subsystems and the pattern [^a] do not. *)
Lemma precreated_holder_visibility_witness :
  wf (Logger "abcd" initial).2
  ∧ ∃ st1,
      SetupLogging (@range_list) normalizePath_id zap_Open_all cfg_demo
        (Logger "abcd" initial).2 = Returned tt st1
      ∧ level_of "a" st1 = Some LevelInfo
      ∧ ("a" ∉ GetSubsystems (@range_list) st1)
      ∧ level_of "a" (SetLogLevel (@range_list) LevelFromString_spec
                        "a" "fatal" st1).2 = Some LevelFatal
      ∧ level_of "a" (SetLogLevel (@range_list) LevelFromString_spec
                        "*" "fatal" st1).2 = Some LevelFatal
      ∧ ∃ r st2,
          SetLogLevelRegex (@range_list) LevelFromString_spec string
            prefix_Compile prefix_Match "^a" "fatal" st1 = Returned r st2
          ∧ level_of "a" st2 = Some LevelInfo.
Proof.
  set (st := (Logger "abcd" initial).2).
  assert (Hwf : wf st) by apply Logger_wf, wf_initial.
  split; [exact Hwf|].
  assert (Hopen : zap_Open_all (outputPaths normalizePath_id cfg_demo)
                  = Some ["stderr"; "stdout"; "/var/log/app.log"; "udp://sink"])
    by by_computation.
  assert (Hla : loggers st !! "a" = None) by by_computation.
  assert (Hsa : SubsystemLevels cfg_demo !! "a" = Some LevelInfo)
    by by_computation.
  assert (Hlvl : LevelFromString_spec "fatal" = inl LevelFatal) by by_computation.
  destruct (precreated_holder_visibility (@range_list) range_list_perm
              LevelFromString_spec normalizePath_id string prefix_Compile
              prefix_Match zap_Open_all cfg_demo st "a" LevelInfo _
              Hwf Hla Hsa Hopen)
    as (st1 & HS & _ & _ & Hlv & Hsub & Hset & Hre).
  exists st1. split; [exact HS|]. split; [exact Hlv|]. split; [exact Hsub|].
  destruct (Hset "fatal" LevelFatal Hlvl) as (_ & He & _ & Hw).
  split; [exact He|]. split; [exact Hw|].
  exact (Hre "^a" "fatal").
Defined.

(** ** More of the code on concrete inputs *)

(** [configFromEnv] on [env_demo]: the last bare level wins, the override of
    ["svc"] is its last one, the entries that do not parse are reported and
    skipped, the file switches stderr off, and nothing is a terminal. *)
Example configFromEnv_demo :
  configFromEnv LevelFromString_spec env_demo IsTerminal_stderr
    IsCygwinTerminal_never OpenFile_none
  = ({| Format := FormatPlaintextOutput; Stderr := false; Stdout := true;
        File := "/var/log/app.log"; URL := ""; Level := LevelWarn;
        SubsystemLevels := {[ "svc" := LevelError ]};
        Labels := {[ "app" := "demo"; "dc" := "sjc-1" ]} |},
     [ErrorSettingLogLevel "bogus" (ErrUnknownLevel "bogus");
      ErrorSettingLogLevel "db=oops" (ErrUnknownLevel "oops");
      InvalidLabel "dc"; InvalidLabel "a=b=c"]).
Proof. by_computation. Qed.

(** With no variable set: stderr only, colorized because stderr is a
    terminal here, default level error, nothing printed. *)
Example configFromEnv_empty :
  configFromEnv LevelFromString_spec env_empty IsTerminal_stderr
    IsCygwinTerminal_never OpenFile_none
  = ({| Format := FormatColorizedOutput; Stderr := true; Stdout := false;
        File := ""; URL := ""; Level := LevelError;
        SubsystemLevels := ∅; Labels := ∅ |}, []).
Proof. by_computation. Qed.

Example Split_examples :
  Split "" sep_comma = [""]
  ∧ Split "a,,b" sep_comma = ["a"; ""; "b"]
  ∧ Split "stdout+file" sep_plus = ["stdout"; "file"]
  ∧ SplitN "a=b=c" sep_equal 2 = ["a"; "b=c"]
  ∧ SplitN "debug" sep_equal 2 = ["debug"].
Proof. vm_compute. by split_and!. Qed.

(** X1 at work. *)
Lemma reachable_registry_invariant_witness :
  is_Some (level_of "undefined"
    (run_all (@range_list) LevelFromString_spec normalizePath_id string
       prefix_Compile prefix_Match zap_Open_all
       [OpSetupLogging cfg_demo; OpLogger "abcd"; OpLogger ""] initial)).
Proof.
  destruct (reachable_registry_invariant (@range_list) range_list_perm
              LevelFromString_spec normalizePath_id string prefix_Compile
              prefix_Match zap_Open_all
              [OpSetupLogging cfg_demo; OpLogger "abcd"; OpLogger ""])
    as (_ & _ & _ & Hlg).
  apply Hlg. vm_compute. by eexists.
Defined.

(** X2 at work. *)
Lemma SetLogLevelRegex_returns_witness :
  wf (Logger "svc-a" initial).2
  ∧ ∃ st',
      SetLogLevelRegex (@range_list) LevelFromString_spec string prefix_Compile
        prefix_Match "^svc-" "warn" (Logger "svc-a" initial).2
      = Returned None st'.
Proof.
  assert (Hwf : wf (Logger "svc-a" initial).2) by apply Logger_wf, wf_initial.
  split; [exact Hwf|].
  assert (Hl : LevelFromString_spec "warn" = inl LevelWarn) by by_computation.
  assert (Hc : prefix_Compile "^svc-" = inl "svc-") by by_computation.
  destruct (SetLogLevelRegex_returns (@range_list) range_list_perm
              LevelFromString_spec string prefix_Compile prefix_Match
              "^svc-" "warn" _ Hwf) as (st' & HS).
  rewrite Hl, Hc in HS. exists st'. exact HS.
Defined.

(** X3 at work: the sink of [cfg_unopenable] does not open. *)
Lemma SetupLogging_failure_witness :
  wf (Logger "abcd" initial).2
  ∧ ∃ st0,
      SetupLogging (@range_list) normalizePath_id zap_Open_all cfg_unopenable
        (Logger "abcd" initial).2 = Panicked st0
      ∧ defaultLevel st0 = LevelWarn
      ∧ level_of "new" (Logger "new" st0).2 = Some LevelWarn.
Proof.
  assert (Hwf : wf (Logger "abcd" initial).2) by apply Logger_wf, wf_initial.
  split; [exact Hwf|].
  assert (Hopen : zap_Open_all (outputPaths normalizePath_id cfg_unopenable) = None)
    by by_computation.
  assert (Hnew : levels (Logger "abcd" initial).2 !! "new" = None)
    by by_computation.
  assert (Hne : "new" ≠ "") by discriminate.
  destruct (SetupLogging_failure (@range_list) normalizePath_id zap_Open_all
              cfg_unopenable _ Hwf Hopen)
    as (st0 & HS & _ & _ & _ & _ & _ & _ & Hd & Hlg).
  exists st0. split; [exact HS|]. split; [exact Hd|].
  exact (Hlg "new" Hne Hnew).
Defined.



(** X6 at work: after [cfg_demo], ["a"] starts at its override and ["zzz"]
    at the default. *)
Lemma Logger_after_SetupLogging_witness :
  wf (Logger "abcd" initial).2
  ∧ ∃ st1,
      SetupLogging (@range_list) normalizePath_id zap_Open_all cfg_demo
        (Logger "abcd" initial).2 = Returned tt st1
      ∧ level_of "a" (Logger "a" st1).2 = Some LevelInfo
      ∧ level_of "zzz" (Logger "zzz" st1).2 = Some LevelWarn.
Proof.
  assert (Hwf : wf (Logger "abcd" initial).2) by apply Logger_wf, wf_initial.
  split; [exact Hwf|].
  assert (Hopen : zap_Open_all (outputPaths normalizePath_id cfg_demo)
                  = Some ["stderr"; "stdout"; "/var/log/app.log"; "udp://sink"])
    by by_computation.
  assert (Ha : default (Level cfg_demo) (SubsystemLevels cfg_demo !! "a")
               = LevelInfo) by by_computation.
  assert (Hz : default (Level cfg_demo) (SubsystemLevels cfg_demo !! "zzz")
               = LevelWarn) by by_computation.
  assert (Hna : "a" ≠ "") by discriminate.
  assert (Hnz : "zzz" ≠ "") by discriminate.
  destruct (SetupLogging_applied (@range_list) range_list_perm normalizePath_id
              zap_Open_all cfg_demo _ _ Hwf Hopen) as (st1 & HS1 & _).
  exists st1. split; [exact HS1|]. split.
  - destruct (Logger_after_SetupLogging (@range_list) range_list_perm
                normalizePath_id zap_Open_all cfg_demo _ st1 "a"
                (Logger "a" st1).1 (Logger "a" st1).2 Hwf HS1 Hna
                (surjective_pairing _)) as (Hlv & _).
    rewrite Hlv. by rewrite Ha.
  - destruct (Logger_after_SetupLogging (@range_list) range_list_perm
                normalizePath_id zap_Open_all cfg_demo _ st1 "zzz"
                (Logger "zzz" st1).1 (Logger "zzz" st1).2 Hwf HS1 Hnz
                (surjective_pairing _)) as (Hlv & _).
    rewrite Hlv. by rewrite Hz.
Defined.

(** X7 at work. *)
Lemma GetSubsystems_after_Logger_witness :
  GetSubsystems (@range_list) (Logger "y" (Logger "x" initial).2).2
  ≡ₚ ["y"; "x"]
  ∧ GetSubsystems (@range_list) (Logger "x" (Logger "x" initial).2).2
    ≡ₚ ["x"].
Proof.
  assert (Hy : "y" ≠ "") by discriminate.
  assert (Hx : "x" ≠ "") by discriminate.
  assert (Hl : GetSubsystems (@range_list) (Logger "x" initial).2 = ["x"])
    by by_computation.
  split.
  - etrans; [exact (GetSubsystems_after_Logger (@range_list) range_list_perm
                      "y" (Logger "x" initial).2 Hy)|].
    by rewrite Hl.
  - etrans; [exact (GetSubsystems_after_Logger (@range_list) range_list_perm
                      "x" (Logger "x" initial).2 Hx)|].
    by rewrite Hl.
Defined.


(** X10 at work. *)
Lemma defaultLevel_only_SetupLogging_witness :
  defaultLevel
    (run_all (@range_list) LevelFromString_spec normalizePath_id string
       prefix_Compile prefix_Match zap_Open_all
       [OpSetupLogging cfg_demo; OpLogger "a"; OpSetLogLevel "*" "debug"]
       initial)
  = LevelWarn.
Proof.
  assert (Hno : ∀ cfg', OpSetupLogging cfg' ∉ [OpLogger "a"; OpSetLogLevel "*" "debug"]).
  { intros cfg' Hin.
    repeat (apply elem_of_cons in Hin as [Hin|Hin]; [discriminate|]).
    by apply elem_of_nil in Hin. }
  exact (proj2 (defaultLevel_only_SetupLogging (@range_list) LevelFromString_spec
                  normalizePath_id string prefix_Compile prefix_Match
                  zap_Open_all _ cfg_demo initial Hno)).
Defined.

(** X16 at work, on [env_demo]. *)
Lemma init_levels_witness :
  ∃ st,
    init (@range_list) LevelFromString_spec normalizePath_id zap_Open_all
      env_demo IsTerminal_stderr IsCygwinTerminal_never OpenFile_none
    = Returned tt st
    ∧ defaultLevel st = LevelWarn
    ∧ level_of "svc" st = Some LevelError
    ∧ level_of "db" st = None.
Proof.
  set (cfg := (configFromEnv LevelFromString_spec env_demo IsTerminal_stderr
                 IsCygwinTerminal_never OpenFile_none).1).
  assert (Hopen : zap_Open_all (outputPaths normalizePath_id cfg)
                  = Some ["stdout"; "/var/log/app.log"]) by by_computation.
  assert (Hd : Level cfg = LevelWarn) by by_computation.
  assert (Hs : SubsystemLevels cfg !! "svc" = Some LevelError) by by_computation.
  assert (Hb : SubsystemLevels cfg !! "db" = None) by by_computation.
  destruct (SetupLogging_applied (@range_list) range_list_perm normalizePath_id
              zap_Open_all cfg initial _ wf_initial Hopen) as (st & HS & _).
  exists st. split; [exact HS|].
  destruct (init_levels (@range_list) range_list_perm LevelFromString_spec
              normalizePath_id zap_Open_all env_demo IsTerminal_stderr
              IsCygwinTerminal_never OpenFile_none st HS) as (_ & Hdef & Hlv & _).
  fold cfg in Hdef, Hlv.
  split; [by rewrite Hdef|]. split.
  - by rewrite (Hlv "svc").
  - by rewrite (Hlv "db").
Defined.

(** X18 at work. *)
Lemma Logger_keeps_levels_witness :
  wf (SetLogLevel (@range_list) LevelFromString_spec "abcd" "debug"
        (Logger "abcd" initial).2).2
  ∧ level_of "abcd"
      (Logger "" (SetLogLevel (@range_list) LevelFromString_spec "abcd" "debug"
                    (Logger "abcd" initial).2).2).2
    = Some LevelDebug.
Proof.
  set (st := (SetLogLevel _ _ _ _ _).2).
  assert (Hwf : wf st) by apply SetLogLevel_wf, Logger_wf, wf_initial.
  split; [exact Hwf|].
  assert (Hn : levels st !! "abcd" = Some 0) by by_computation.
  assert (Hl : level_of "abcd" st = Some LevelDebug) by by_computation.
  destruct (Logger_keeps_levels "" st "abcd" 0 Hwf Hn) as (_ & Hk).
  rewrite Hk. exact Hl.
Defined.

(** X9 at work: a refused [SetLogLevel] and a pattern that does not compile. *)
Lemma level_setters_frame_witness :
  only_cells_differ (Logger "abcd" initial).2
    (SetLogLevel (@range_list) LevelFromString_spec "nope" "info"
       (Logger "abcd" initial).2).2
  ∧ only_cells_differ (Logger "abcd" initial).2
      (state_after (SetLogLevelRegex (@range_list) LevelFromString_spec string
                      prefix_Compile prefix_Match "(" "info"
                      (Logger "abcd" initial).2)).
Proof.
  exact (level_setters_frame (@range_list) LevelFromString_spec string
           prefix_Compile prefix_Match "nope" "info" "(" "info"
           (Logger "abcd" initial).2).
Defined.

(** X11 at work, on [env_demo]: stdout is listed, and the file switches
    stderr off. *)
Lemma configFromEnv_destinations_witness :
  Stdout (configFromEnv LevelFromString_spec env_demo IsTerminal_stderr
            IsCygwinTerminal_never OpenFile_none).1 = true
  ∧ Stderr (configFromEnv LevelFromString_spec env_demo IsTerminal_stderr
              IsCygwinTerminal_never OpenFile_none).1 ≠ true.
Proof.
  destruct (configFromEnv_destinations LevelFromString_spec env_demo
              IsTerminal_stderr IsCygwinTerminal_never OpenFile_none)
    as (Ho & He & _).
  split.
  - apply Ho. vm_compute. by left.
  - intros [Hf|Hin]%He.
    + vm_compute in Hf. discriminate.
    + vm_compute in Hin.
      repeat (apply elem_of_cons in Hin as [Hin|Hin]; [discriminate|]).
      by apply elem_of_nil in Hin.
Defined.

(** X12 at work, on [env_demo]: no format is given and no destination is a
    terminal. *)
Lemma configFromEnv_format_witness :
  Format (configFromEnv LevelFromString_spec env_demo IsTerminal_stderr
            IsCygwinTerminal_never OpenFile_none).1 = FormatPlaintextOutput
  ∧ Format (configFromEnv LevelFromString_spec env_empty IsTerminal_stderr
              IsCygwinTerminal_never OpenFile_none).1 = FormatColorizedOutput.
Proof.
  split.
  - rewrite (configFromEnv_format LevelFromString_spec env_demo
               IsTerminal_stderr IsCygwinTerminal_never OpenFile_none).
    by_computation.
  - rewrite (configFromEnv_format LevelFromString_spec env_empty
               IsTerminal_stderr IsCygwinTerminal_never OpenFile_none).
    by_computation.
Defined.

(** X13 at work. *)
Lemma configFromEnv_levels_witness :
  Level (configFromEnv LevelFromString_spec env_demo IsTerminal_stderr
           IsCygwinTerminal_never OpenFile_none).1 = LevelWarn
  ∧ SubsystemLevels (configFromEnv LevelFromString_spec env_demo
                       IsTerminal_stderr IsCygwinTerminal_never
                       OpenFile_none).1 !! "svc" = Some LevelError
  ∧ Level (configFromEnv LevelFromString_spec env_empty IsTerminal_stderr
             IsCygwinTerminal_never OpenFile_none).1 = LevelError.
Proof.
  destruct (configFromEnv_levels LevelFromString_spec env_demo
              IsTerminal_stderr IsCygwinTerminal_never OpenFile_none)
    as (Hd & Hs & _).
  destruct (configFromEnv_levels LevelFromString_spec env_empty
              IsTerminal_stderr IsCygwinTerminal_never OpenFile_none)
    as (_ & _ & Hunset).
  split; [|split].
  - rewrite Hd. by_computation.
  - rewrite Hs. by_computation.
  - exact (proj1 (Hunset eq_refl)).
Defined.

(** X14 at work. *)
Lemma configFromEnv_labels_witness :
  Labels (configFromEnv LevelFromString_spec env_demo IsTerminal_stderr
            IsCygwinTerminal_never OpenFile_none).1 !! "dc" = Some "sjc-1"
  ∧ Labels (configFromEnv LevelFromString_spec env_demo IsTerminal_stderr
              IsCygwinTerminal_never OpenFile_none).1 !! "a" = None.
Proof.
  destruct (configFromEnv_labels LevelFromString_spec env_demo
              IsTerminal_stderr IsCygwinTerminal_never OpenFile_none)
    as (Hl & _).
  split.
  - rewrite Hl. by_computation.
  - rewrite Hl. by_computation.
Defined.

(** X15 at work, on [env_demo]: stdout and the file, no stderr. *)
Lemma init_destinations_witness :
  outputPaths normalizePath_id
    (configFromEnv LevelFromString_spec env_demo IsTerminal_stderr
       IsCygwinTerminal_never OpenFile_none).1
  = ["stdout"; "/var/log/app.log"].
Proof.
  destruct (init_destinations (@range_list) LevelFromString_spec
              normalizePath_id zap_Open_all env_demo IsTerminal_stderr
              IsCygwinTerminal_never OpenFile_none) as (Hd & _).
  rewrite Hd. by_computation.
Defined.

(** X17 at work. *)
Lemma configFromEnv_warnings_witness :
  (configFromEnv LevelFromString_spec env_empty IsTerminal_stderr
     IsCygwinTerminal_never OpenFile_none).2 = []
  ∧ (configFromEnv LevelFromString_spec env_demo IsTerminal_stderr
       IsCygwinTerminal_never OpenFile_none).2
    = [ErrorSettingLogLevel "bogus" (ErrUnknownLevel "bogus");
       ErrorSettingLogLevel "db=oops" (ErrUnknownLevel "oops");
       InvalidLabel "dc"; InvalidLabel "a=b=c"].
Proof.
  split.
  - exact (proj2 (configFromEnv_warnings LevelFromString_spec env_empty
                    IsTerminal_stderr IsCygwinTerminal_never OpenFile_none)
             (fun _ => eq_refl)).
  - rewrite (proj1 (configFromEnv_warnings LevelFromString_spec env_demo
                      IsTerminal_stderr IsCygwinTerminal_never OpenFile_none)).
    by_computation.
Defined.
